(** * switch_model.policies.rps_simple

    A model of the simple Renewable Portfolio Standard policy module of
    Switch, [switch_model/policies/rps_simple.py], and the properties of its
    components: the eligibility parameter, the RPS period set and targets,
    the energy expressions, the enforcement constraint, input loading and the
    post-solve report.

    Numbers are exact rationals ([Q]); the Python code computes with floats.
    A Pyomo expression is modelled by its value under an assignment of the
    decision variables, or by the exception raised on the way to that
    value. *)

From Stdlib Require Import QArith.
From stdpp Require Import gmap strings list.

Local Open Scope string_scope.
Local Open Scope list_scope.
Local Open Scope Q_scope.

(** ** Exceptions *)

Inductive error : Set :=
  | KeyError
  | ValueError
  | IOError
  | ZeroDivisionError.

Inductive result (A : Type) : Type :=
  | Ok (a : A)
  | Err (e : error).
Arguments Ok {A} a.
Arguments Err {A} e.

Definition result_bind {A B} (f : A → result B) (r : result A) : result B :=
  match r with
  | Ok a => f a
  | Err e => Err e
  end.

#[global] Instance result_ret : MRet result := @Ok.
#[global] Instance result_mbind : MBind result := @result_bind.

(** ** Python built-ins *)

(** [sum(xs)]: starts from 0 and adds the elements from left to right. *)
Definition py_sum (xs : list Q) : Q := fold_left Qplus xs 0.

(** [x / y] on numbers. *)
Definition py_div (x y : Q) : result Q :=
  if Qeq_bool y 0 then Err ZeroDivisionError else Ok (x / y).

(** A comprehension [e(x) for x in xs] whose element expression can raise:
    the elements are evaluated in order and the first exception wins. *)
Fixpoint for_each {A B} (f : A → result B) (xs : list A) : result (list B) :=
  match xs with
  | [] => Ok []
  | x :: xs' => y ← f x; ys ← for_each f xs'; Ok (y :: ys)
  end.

(** The filter [x for x in xs if c(x)] whose condition can raise. *)
Fixpoint for_each_if {A} (c : A → result bool) (xs : list A) : result (list A) :=
  match xs with
  | [] => Ok []
  | x :: xs' => b ← c x; ys ← for_each_if c xs'; Ok (if b : bool then x :: ys else ys)
  end.

(** ** The host model

    The sets, parameters and decision variables that the core modules of
    Switch have put on the model before this module runs. *)

Record Host : Type := {
  FUELS : list string;
  NON_FUEL_ENERGY_SOURCES : list string;
  PERIODS : list string;
  LOAD_ZONES : list string;
  GENERATION_PROJECTS : list string;
  FUEL_BASED_GENS : list string;
  NON_FUEL_BASED_GENS : list string;
  FUELS_FOR_GEN : string → list string;
  TPS_FOR_GEN_IN_PERIOD : string → string → list string;
  tp_weight : string → Q;
  gen_full_load_heat_rate : string → Q;
  zone_total_demand_in_period_mwh : string → string → Q
}.

(** The values of the decision variables. *)
Record Solution : Type := {
  DispatchGen : string → string → Q;
  GenFuelUseRate : string → string → string → Q
}.

(** ** Pyomo parameters *)

Record Param (V : Type) : Type := {
  index_set : list string;
  default_value : option V;
  values : gmap string V
}.
Arguments index_set {V} _.
Arguments default_value {V} _.
Arguments values {V} _.

(** [P[k]]: a key outside the index set is a [KeyError]; a key with neither
    a value nor a default is a [ValueError]. *)
Definition getitem {V} (P : Param V) (k : string) : result V :=
  if decide (k ∈ index_set P) then
    match values P !! k with
    | Some v => Ok v
    | None =>
        match default_value P with
        | Some d => Ok d
        | None => Err ValueError
        end
    end
  else Err KeyError.

(** [E[k]] for an [Expression] (or [Constraint]) declared over an index set. *)
Definition Expression {A} (index : list string) (rule : string → result A)
    (k : string) : result A :=
  if decide (k ∈ index) then rule k else Err KeyError.

(** ** The model with the components of this module *)

Record Model : Type := {
  host :> Host;
  f_rps_eligible_values : gmap string bool;
  RPS_PERIODS : list string;
  rps_target_values : gmap string Q
}.

(** [mod.f_rps_eligible = Param(mod.FUELS, within=Boolean, default=False)] *)
Definition f_rps_eligible (m : Model) : Param bool :=
  {| index_set := FUELS m; default_value := Some false;
     values := f_rps_eligible_values m |}.

(** [mod.rps_target = Param(mod.RPS_PERIODS, within=PercentFraction)] *)
Definition rps_target (m : Model) : Param Q :=
  {| index_set := RPS_PERIODS m; default_value := None;
     values := rps_target_values m |}.

(** [set(m.NON_FUEL_ENERGY_SOURCES) | set(f for f in m.FUELS if m.f_rps_eligible[f])] *)
Definition RPS_ENERGY_SOURCES (m : Model) : result (gset string) :=
  fs ← for_each_if (getitem (f_rps_eligible m)) (FUELS m);
  Ok (list_to_set (NON_FUEL_ENERGY_SOURCES m) ∪ list_to_set fs).

(** The inner sum of [RPSFuelEnergy]:
    [sum(m.GenFuelUseRate[g, t, f] for f in m.FUELS_FOR_GEN[g] if m.f_rps_eligible[f])] *)
Definition eligible_fuel_use (m : Model) (sol : Solution) (g t : string) : result Q :=
  fs ← for_each_if (getitem (f_rps_eligible m)) (FUELS_FOR_GEN m g);
  Ok (py_sum (map (GenFuelUseRate sol g t) fs)).

(** The pairs [(g, t)] of [for g in gens for t in m.TPS_FOR_GEN_IN_PERIOD[g, p]]. *)
Definition gen_tps (m : Model) (gens : list string) (p : string) : list (string * string) :=
  g ← gens; t ← TPS_FOR_GEN_IN_PERIOD m g p; [(g, t)].

Definition RPSFuelEnergy_rule (m : Model) (sol : Solution) (p : string) : result Q :=
  terms ← for_each
    (λ gt : string * string,
       let (g, t) := gt in
       used ← eligible_fuel_use m sol g t;
       py_div (tp_weight m t * used) (gen_full_load_heat_rate m g))
    (gen_tps m (FUEL_BASED_GENS m) p);
  Ok (py_sum terms).

Definition RPSFuelEnergy (m : Model) (sol : Solution) : string → result Q :=
  Expression (RPS_PERIODS m) (RPSFuelEnergy_rule m sol).

Definition RPSNonFuelEnergy_rule (m : Model) (sol : Solution) (p : string) : result Q :=
  Ok (py_sum (map (λ gt : string * string,
                     let (g, t) := gt in DispatchGen sol g t * tp_weight m t)
                  (gen_tps m (NON_FUEL_BASED_GENS m) p))).

Definition RPSNonFuelEnergy (m : Model) (sol : Solution) : string → result Q :=
  Expression (RPS_PERIODS m) (RPSNonFuelEnergy_rule m sol).

Definition total_generation_in_period (model : Model) (sol : Solution) (period : string) : Q :=
  py_sum (map (λ gt : string * string,
                 let (g, t) := gt in DispatchGen sol g t * tp_weight model t)
              (gen_tps model (GENERATION_PROJECTS model) period)).

Definition total_demand_in_period (model : Model) (period : string) : Q :=
  py_sum (map (λ zone, zone_total_demand_in_period_mwh model zone period)
              (LOAD_ZONES model)).

(** A relational expression [lhs >= rhs], by the values of its two sides. *)
Record inequality : Type := GreaterEq { lhs : Q; rhs : Q }.

Definition holds (c : inequality) : bool := Qle_bool (rhs c) (lhs c).

Definition RPS_Enforce_Target_rule (m : Model) (sol : Solution) (p : string) : result inequality :=
  fe ← RPSFuelEnergy m sol p;
  nfe ← RPSNonFuelEnergy m sol p;
  target ← getitem (rps_target m) p;
  Ok (GreaterEq (fe + nfe) (target * total_demand_in_period m p)).

(** [Constraint(index, rule=...)]: one relational expression per member of
    the index set, in the order of the set. *)
Definition Constraint (index : list string) (rule : string → result inequality)
    : result (list (string * inequality)) :=
  for_each (λ p, c ← rule p; Ok (p, c)) index.

Definition RPS_Enforce_Target (m : Model) (sol : Solution) : result (list (string * inequality)) :=
  Constraint (RPS_PERIODS m) (RPS_Enforce_Target_rule m sol).

(** A solution satisfies the constraints this module adds. *)
Definition satisfies_RPS (m : Model) (sol : Solution) : Prop :=
  ∃ cs, RPS_Enforce_Target m sol = Ok cs ∧ Forall (λ pc, holds pc.2 = true) cs.

(** ** Post-solve report *)

(** [get_row] of [post_solve]: the period and the six entries after it, in
    the order in which the source appends them. *)
Definition get_row (m : Model) (sol : Solution) (p : string) : result (string * list Q) :=
  fuel_gwh ← (fe ← RPSFuelEnergy m sol p; py_div fe 1000);
  non_fuel_gwh ← (nfe ← RPSNonFuelEnergy m sol p; py_div nfe 1000);
  generation_gwh ← py_div (total_generation_in_period m sol p) 1000;
  gen_fraction ← (fe ← RPSFuelEnergy m sol p;
                  nfe ← RPSNonFuelEnergy m sol p;
                  py_div (fe + nfe) (total_generation_in_period m sol p));
  let sales := total_demand_in_period m p in
  sales_fraction ← (fe ← RPSFuelEnergy m sol p;
                    nfe ← RPSNonFuelEnergy m sol p;
                    py_div (fe + nfe) (total_demand_in_period m p));
  Ok (p, [fuel_gwh; non_fuel_gwh; generation_gwh; gen_fraction; sales; sales_fraction]).

Definition headings : list string :=
  ["PERIOD"; "RPSFuelEnergyGWh"; "RPSNonFuelEnergyGWh";
   "TotalGenerationInPeriodGWh"; "RPSGenFraction";
   "TotalSalesInPeriodGWh"; "RPSSalesFraction"].

(** Modelled from the spec: [switch_model.reporting.write_table] is not part
    of the module; it writes the header and then one row per member of the
    index set, and an exception of the row function ends the report. *)
Definition write_table (index : list string) (headings : list string)
    (values : string → result (string * list Q))
    : result (list string * list (string * list Q)) :=
  rows ← for_each values index; Ok (headings, rows).

Definition post_solve (instance : Model) (sol : Solution)
    : result (list string * list (string * list Q)) :=
  write_table (RPS_PERIODS instance) headings (get_row instance sol).

(** ** Input files and the data portal *)

(** Modelled from the spec: the input files are read by the data portal of
    the host, which is not part of the module. A value read from a file is
    a truth value, a number or a name. *)
Inductive cell : Type :=
  | CBool (b : bool)
  | CNum (q : Q)
  | CStr (s : string).

(** Modelled from the spec: a parsed tab file, by the names of its value
    columns and, for every row, the entry of the index column with the cells
    of the value columns. *)
Record TabFile : Type := {
  value_columns : list string;
  rows : list (string * gmap string cell)
}.

(** Modelled from the spec: the data portal of the host, which collects the
    loaded data by component name, members for sets and (key, value)
    assignments for parameters. *)
Record DataPortal : Type := {
  set_data : gmap string (list string);
  param_data : gmap string (list (string * cell))
}.

Definition empty_portal : DataPortal := {| set_data := ∅; param_data := ∅ |}.

(** The assignments that a table makes to the parameter of column [name]. *)
Definition assignments (tab : TabFile) (name : string) : list (string * cell) :=
  omap (λ row : string * gmap string cell, c ← row.2 !! name; Some (row.1, c)) (rows tab).

Definition add_param_data (name : string) (kvs : list (string * cell)) (d : DataPortal) : DataPortal :=
  {| set_data := set_data d;
     param_data := <[name := default [] (param_data d !! name) ++ kvs]> (param_data d) |}.

Definition add_set_data (name : string) (ks : list string) (d : DataPortal) : DataPortal :=
  {| set_data := <[name := default [] (set_data d !! name) ++ ks]> (set_data d);
     param_data := param_data d |}.

(** Modelled from the spec: [switch_model.utilities.load_aug] is not part of
    the module. A missing file is a fatal load error. A parameter whose
    column is not in the file (or not selected) is skipped when it is
    optional and is an error otherwise. Every row assigns its cell to the
    parameter at the row's index entry, and with [index] every row's index
    entry becomes a member of that set. The portal is updated in place, so
    the function returns the portal together with the outcome. *)
Definition load_aug (inputs_dir : gmap string TabFile) (filename : string)
    (select : option (list string)) (optional_params : list string)
    (index : option string) (param : list string)
    (switch_data : DataPortal) : result unit * DataPortal :=
  match inputs_dir !! filename with
  | None => (Err IOError, switch_data)
  | Some tab =>
      let selected name :=
        bool_decide (name ∈ value_columns tab) &&
        match select with
        | None => true
        | Some cols => bool_decide (name ∈ cols)
        end in
      if forallb (λ name, selected name || bool_decide (name ∈ optional_params)) param then
        let d1 := match index with
                  | None => switch_data
                  | Some s => add_set_data s (map fst (rows tab)) switch_data
                  end in
        (Ok (), foldl (λ d name, add_param_data name (assignments tab name) d)
                      d1 (filter (λ name, selected name = true) param))
      else (Err ValueError, switch_data)
  end.

(** [load_inputs]: the column f_rps_eligible of fuels.tab, selected and
    optional, for the parameter; then rps_targets.tab with all its columns,
    its index entries for [RPS_PERIODS] and the column rps_target for the
    parameter. An exception of the first call ends the function. *)
Definition load_inputs (inputs_dir : gmap string TabFile) (switch_data : DataPortal)
    : result unit * DataPortal :=
  let (r, switch_data) :=
    load_aug inputs_dir "fuels.tab" (Some ["fuel"; "f_rps_eligible"])
      ["f_rps_eligible"] None ["f_rps_eligible"] switch_data in
  match r with
  | Err e => (Err e, switch_data)
  | Ok _ =>
      load_aug inputs_dir "rps_targets.tab" None [] (Some "RPS_PERIODS")
        ["rps_target"] switch_data
  end.

(** ** Construction of the declared components *)

(** Modelled from the spec: the domain [Boolean] of Pyomo, which is not part
    of the module; it holds the truth values. *)
Definition Boolean (c : cell) : option bool :=
  match c with
  | CBool b => Some b
  | _ => None
  end.

(** Modelled from the spec: the domain [PercentFraction] of Pyomo, which is
    not part of the module; it is the closed interval from 0 to 1. *)
Definition PercentFraction (c : cell) : option Q :=
  match c with
  | CNum q => if Qle_bool 0 q && Qle_bool q 1 then Some q else None
  | _ => None
  end.

(** Modelled from the spec: one step of the construction of a [Param], the
    check of one assignment: its key has to be in the index set and its
    value in the domain [within], and a failure is fatal. *)
Definition assign {V} (index : list string) (within : cell → option V)
    (acc : result (gmap string V)) (kc : string * cell) : result (gmap string V) :=
  vs ← acc;
  if decide (kc.1 ∈ index) then
    match within kc.2 with
    | Some v => Ok (<[kc.1 := v]> vs)
    | None => Err ValueError
    end
  else Err KeyError.

(** Modelled from the spec: the construction of a [Param] from loaded data
    by Pyomo, which is not part of the module. The assignments are checked
    and stored in order. *)
Definition construct_Param {V} (index : list string) (within : cell → option V)
    (data : list (string * cell)) : result (gmap string V) :=
  foldl (assign index within) (Ok ∅) data.

(** Modelled from the spec: one step of the construction of a [Set] with a
    [validate] rule: a member that fails the rule is fatal, and a member
    that is already in the set is not added again. *)
Definition add_member (validate : string → bool)
    (acc : result (list string)) (x : string) : result (list string) :=
  s ← acc;
  if validate x then Ok (if decide (x ∈ s) then s else s ++ [x])
  else Err ValueError.

(** Modelled from the spec: the construction of a [Set] with a [validate]
    rule from loaded data by Pyomo, which is not part of the module. The
    members are checked and added in order. *)
Definition construct_Set (validate : string → bool) (data : list string) : result (list string) :=
  foldl (add_member validate) (Ok []) data.

(** The rule of [mod.RPS_PERIODS = Set(validate=lambda m, p: p in m.PERIODS)]. *)
Definition RPS_PERIODS_validate (m : Host) (p : string) : bool :=
  bool_decide (p ∈ PERIODS m).

Definition loaded_set (d : DataPortal) (name : string) : list string :=
  default [] (set_data d !! name).

Definition loaded_param (d : DataPortal) (name : string) : list (string * cell) :=
  default [] (param_data d !! name).

(** The components of [define_components] that hold data, constructed in the
    order of their declaration from the loaded data. *)
Definition define_components (mod_ : Host) (data : DataPortal) : result Model :=
  eligible ← construct_Param (FUELS mod_) Boolean (loaded_param data "f_rps_eligible");
  periods ← construct_Set (RPS_PERIODS_validate mod_) (loaded_set data "RPS_PERIODS");
  targets ← construct_Param periods PercentFraction (loaded_param data "rps_target");
  Ok {| host := mod_; f_rps_eligible_values := eligible;
        RPS_PERIODS := periods; rps_target_values := targets |}.

(** ** Vocabulary of the properties *)

(** The flag of a fuel as the parameter reports it: the loaded value, or the
    default. *)
Definition eligible (m : Model) (f : string) : bool :=
  default false (f_rps_eligible_values m !! f).

(** The model with the eligibility of fuel [f] set to [b] and all other data
    unchanged. *)
Definition set_f_rps_eligible (m : Model) (f : string) (b : bool) : Model := {|
  host := host m;
  f_rps_eligible_values := <[f := b]> (f_rps_eligible_values m);
  RPS_PERIODS := RPS_PERIODS m;
  rps_target_values := rps_target_values m
|}.

(** Two solutions that differ at most in the use of fuel [f]. *)
Definition same_except_fuel (f : string) (sol sol' : Solution) : Prop :=
  (∀ g t, DispatchGen sol g t = DispatchGen sol' g t) ∧
  (∀ g t f', f' ≠ f → GenFuelUseRate sol g t f' = GenFuelUseRate sol' g t f').

(** The input files assign an eligibility to fuel [f]: fuels.tab has the
    column f_rps_eligible and a row of [f] with a value in it. *)
Definition eligibility_assigned (inputs_dir : gmap string TabFile) (f : string) : Prop :=
  ∃ tab row c,
    inputs_dir !! "fuels.tab" = Some tab ∧
    "f_rps_eligible" ∈ value_columns tab ∧
    (f, row) ∈ rows tab ∧
    row !! "f_rps_eligible" = Some c.

(** ** A two-period system

    Periods P1 and P2 with one timepoint each; a wind farm, a biomass plant
    and a coal plant; biomass is the one eligible fuel. The load zones and
    their demand stay open. *)

Definition example_host (zones : list string) (demand : string → string → Q) : Host := {|
  FUELS := ["Biomass"; "Coal"];
  NON_FUEL_ENERGY_SOURCES := ["Wind"];
  PERIODS := ["P1"; "P2"];
  LOAD_ZONES := zones;
  GENERATION_PROJECTS := ["wind_farm"; "biomass_plant"; "coal_plant"];
  FUEL_BASED_GENS := ["biomass_plant"; "coal_plant"];
  NON_FUEL_BASED_GENS := ["wind_farm"];
  FUELS_FOR_GEN := λ g,
    if String.eqb g "biomass_plant" then ["Biomass"]
    else if String.eqb g "coal_plant" then ["Coal"] else [];
  TPS_FOR_GEN_IN_PERIOD := λ g p,
    if String.eqb p "P1" then ["t1"]
    else if String.eqb p "P2" then ["t2"] else [];
  tp_weight := λ _, 1;
  gen_full_load_heat_rate := λ _, 10;
  zone_total_demand_in_period_mwh := demand
|}.

(** The input files: biomass is eligible, coal is not, and P1 alone has a
    target, of one half. *)
Definition fuels_tab : TabFile :=
  {| value_columns := ["f_rps_eligible"];
     rows := [("Biomass", {[ "f_rps_eligible" := CBool true ]});
              ("Coal", {[ "f_rps_eligible" := CBool false ]})] |}.

Definition rps_targets_tab : TabFile :=
  {| value_columns := ["rps_target"];
     rows := [("P1", {[ "rps_target" := CNum (1 # 2) ]})] |}.

Definition example_inputs : gmap string TabFile :=
  {[ "fuels.tab" := fuels_tab; "rps_targets.tab" := rps_targets_tab ]}.

Definition example_model (zones : list string) (demand : string → string → Q) : Model := {|
  host := example_host zones demand;
  f_rps_eligible_values := {[ "Biomass" := true; "Coal" := false ]};
  RPS_PERIODS := ["P1"];
  rps_target_values := {[ "P1" := 1 # 2 ]}
|}.

(** [dispatch g] is the output of project [g] in timepoint t1, and nothing is
    dispatched in t2; the fuel use follows from the heat rate of 10. *)
Definition example_solution (dispatch : string → Q) : Solution := {|
  DispatchGen := λ g t, if String.eqb t "t1" then dispatch g else 0;
  GenFuelUseRate := λ g t f,
    if String.eqb t "t1" then
      if String.eqb g "biomass_plant" && String.eqb f "Biomass" then 10 * dispatch g
      else if String.eqb g "coal_plant" && String.eqb f "Coal" then 10 * dispatch g
      else 0
    else 0
|}.

(** The wind farm produces 100, the biomass plant 20 and the coal plant 80. *)
Definition dispatch_100_20_80 (g : string) : Q :=
  if String.eqb g "wind_farm" then 100
  else if String.eqb g "biomass_plant" then 20
  else if String.eqb g "coal_plant" then 80 else 0.

(** The reporting scenario, in MWh: 20000 from biomass, 100000 from wind and
    30000 from coal, 150000 in all. *)
Definition dispatch_report (g : string) : Q :=
  if String.eqb g "wind_farm" then 100000
  else if String.eqb g "biomass_plant" then 20000
  else if String.eqb g "coal_plant" then 30000 else 0.

(** A demand of 140000 MWh per load zone in every period. *)
Definition demand_report (zone period : string) : Q := 140000.

(** A demand of 200 per load zone in every period. *)
Definition demand_200 (zone period : string) : Q := 200.

(** The same directory when fuels.tab lacks the column f_rps_eligible, and
    the model that is built from it. *)
Definition fuels_tab_without_column : TabFile :=
  {| value_columns := []; rows := [("Biomass", ∅); ("Coal", ∅)] |}.

Definition example_inputs_without_column : gmap string TabFile :=
  {[ "fuels.tab" := fuels_tab_without_column; "rps_targets.tab" := rps_targets_tab ]}.

Definition example_model_without_flags (zones : list string)
    (demand : string → string → Q) : Model := {|
  host := example_host zones demand;
  f_rps_eligible_values := ∅;
  RPS_PERIODS := ["P1"];
  rps_target_values := {[ "P1" := 1 # 2 ]}
|}.



(** [m'] is [m] with more fuels flagged: the same host, periods and targets,
    and every fuel that is eligible in [m] is eligible in [m']. *)
Definition widens_eligibility (m m' : Model) : Prop :=
  host m' = host m ∧
  RPS_PERIODS m' = RPS_PERIODS m ∧
  rps_target_values m' = rps_target_values m ∧
  ∀ f, eligible m f = true → eligible m' f = true.

(** The model whose load zones, projects and timepoints are listed by the
    host in another order, with all parameters unchanged. *)
Definition reorder (m : Model) (zones projects fuel_based non_fuel_based : list string)
    (tps : string → string → list string) : Model := {|
  host := {|
    FUELS := FUELS m;
    NON_FUEL_ENERGY_SOURCES := NON_FUEL_ENERGY_SOURCES m;
    PERIODS := PERIODS m;
    LOAD_ZONES := zones;
    GENERATION_PROJECTS := projects;
    FUEL_BASED_GENS := fuel_based;
    NON_FUEL_BASED_GENS := non_fuel_based;
    FUELS_FOR_GEN := FUELS_FOR_GEN m;
    TPS_FOR_GEN_IN_PERIOD := tps;
    tp_weight := tp_weight m;
    gen_full_load_heat_rate := gen_full_load_heat_rate m;
    zone_total_demand_in_period_mwh := zone_total_demand_in_period_mwh m
  |};
  f_rps_eligible_values := f_rps_eligible_values m;
  RPS_PERIODS := RPS_PERIODS m;
  rps_target_values := rps_target_values m
|}.


(** The two-period system when the heat rate of the coal plant, whose fuel
    is not eligible, is zero. *)
Definition example_model_zero_heat_rate (zones : list string)
    (demand : string → string → Q) : Model := {|
  host := {|
    FUELS := ["Biomass"; "Coal"];
    NON_FUEL_ENERGY_SOURCES := ["Wind"];
    PERIODS := ["P1"; "P2"];
    LOAD_ZONES := zones;
    GENERATION_PROJECTS := ["wind_farm"; "biomass_plant"; "coal_plant"];
    FUEL_BASED_GENS := ["biomass_plant"; "coal_plant"];
    NON_FUEL_BASED_GENS := ["wind_farm"];
    FUELS_FOR_GEN := FUELS_FOR_GEN (example_host zones demand);
    TPS_FOR_GEN_IN_PERIOD := TPS_FOR_GEN_IN_PERIOD (example_host zones demand);
    tp_weight := λ _, 1;
    gen_full_load_heat_rate := λ g, if String.eqb g "coal_plant" then 0 else 10;
    zone_total_demand_in_period_mwh := demand
  |};
  f_rps_eligible_values := {[ "Biomass" := true; "Coal" := false ]};
  RPS_PERIODS := ["P1"];
  rps_target_values := {[ "P1" := 1 # 2 ]}
|}.

(** The two-period system with two load zones, and the same system with the
    zones and the projects listed in another order. *)
Definition example_two_zones : Model := example_model ["North"; "South"] demand_200.

Definition example_two_zones_reordered : Model :=
  reorder example_two_zones ["South"; "North"]
    ["coal_plant"; "wind_farm"; "biomass_plant"] ["coal_plant"; "biomass_plant"]
    ["wind_farm"] (TPS_FOR_GEN_IN_PERIOD example_two_zones).

(** * Properties *)

(** ** The exception monad and comprehensions *)

(** Run the binds whose argument is a value or an exception. *)
Ltac run := cbn [mbind result_mbind result_bind mret result_ret].

Lemma bind_Ok {A B} (f : A → result B) (r : result A) (b : B) :
  (r ≫= f) = Ok b ↔ ∃ a, r = Ok a ∧ f a = Ok b.
Proof.
  destruct r as [a|e]; simpl; split.
  - intros H. by exists a.
  - by intros (a' & [= ->] & H).
  - discriminate.
  - by intros (a' & [=] & _).
Qed.

Section Comprehensions.
Context {A B : Type}.

Lemma for_each_cons (f : A → result B) x xs :
  for_each f (x :: xs) = (y ← f x; ys ← for_each f xs; Ok (y :: ys)).
Proof. reflexivity. Qed.

(** A comprehension whose elements all evaluate is the plain map. *)
Lemma for_each_total (f : A → result B) (g : A → B) xs :
  (∀ x, x ∈ xs → f x = Ok (g x)) → for_each f xs = Ok (map g xs).
Proof.
  induction xs as [|x xs IH]; intros Hf; [done|].
  rewrite for_each_cons, (Hf x), IH; [done| |left].
  intros y Hy. apply Hf. by right.
Qed.

Lemma for_each_Ok (f : A → result B) xs ys :
  for_each f xs = Ok ys → Forall2 (λ x y, f x = Ok y) xs ys.
Proof.
  revert ys. induction xs as [|x xs IH]; intros ys.
  - intros [= <-]. constructor.
  - rewrite for_each_cons. intros (y & Hy & H)%bind_Ok.
    apply bind_Ok in H as (ys' & Hys & [= <-]). constructor; auto.
Qed.

(** An element that raises makes the comprehension raise. *)
Lemma for_each_Err (f : A → result B) xs x e :
  x ∈ xs → f x = Err e → ∀ ys, for_each f xs ≠ Ok ys.
Proof.
  intros Hx He ys Hys. apply for_each_Ok in Hys.
  apply list_elem_of_lookup in Hx as [i Hi].
  destruct (Forall2_lookup_l _ _ _ _ _ Hys Hi) as (y & _ & Hy). congruence.
Qed.

Lemma for_each_if_cons (c : A → result bool) x xs :
  for_each_if c (x :: xs) =
    (b ← c x; ys ← for_each_if c xs; Ok (if b : bool then x :: ys else ys)).
Proof. reflexivity. Qed.

Lemma for_each_if_total (c : A → result bool) (d : A → bool) xs :
  (∀ x, x ∈ xs → c x = Ok (d x)) → for_each_if c xs = Ok (List.filter d xs).
Proof.
  induction xs as [|x xs IH]; intros Hc; [done|].
  rewrite for_each_if_cons, (Hc x), IH; [done| |left].
  intros y Hy. apply Hc. by right.
Qed.
End Comprehensions.

(** ** Sums of rationals *)

Lemma fold_left_Qplus (xs : list Q) (a : Q) :
  fold_left Qplus xs a == a + py_sum xs.
Proof.
  unfold py_sum. revert a. induction xs as [|x xs IH]; intros a; simpl.
  - ring.
  - rewrite (IH (a + x)), (IH (0 + x)). ring.
Qed.

Lemma py_sum_nil : py_sum [] = 0.
Proof. reflexivity. Qed.

Lemma py_sum_cons (x : Q) (xs : list Q) : py_sum (x :: xs) == x + py_sum xs.
Proof.
  unfold py_sum at 1. simpl. rewrite fold_left_Qplus. ring.
Qed.

Lemma py_sum_le (xs ys : list Q) :
  Forall2 Qle xs ys → py_sum xs <= py_sum ys.
Proof.
  induction 1 as [|x y xs ys Hxy _ IH]; [apply Qle_refl|].
  rewrite !py_sum_cons. by apply Qplus_le_compat.
Qed.

Lemma py_sum_nonneg (xs : list Q) :
  Forall (Qle 0) xs → 0 <= py_sum xs.
Proof.
  induction 1 as [|x xs Hx _ IH]; [apply Qle_refl|].
  rewrite py_sum_cons. replace 0 with (0 + 0) by reflexivity.
  by apply Qplus_le_compat.
Qed.

Lemma py_div_Ok (x y : Q) : ¬ y == 0 → py_div x y = Ok (x / y).
Proof.
  intros Hy. unfold py_div.
  destruct (Qeq_bool y 0) eqn:E; [|done]. by apply Qeq_bool_eq in E.
Qed.

Lemma py_div_zero (x y : Q) : y == 0 → py_div x y = Err ZeroDivisionError.
Proof.
  intros Hy. unfold py_div. by rewrite (Qeq_eq_bool _ _ Hy).
Qed.

(** ** Eligibility and the eligible sources *)

Lemma getitem_f_rps_eligible (m : Model) (f : string) :
  f ∈ FUELS m → getitem (f_rps_eligible m) f = Ok (eligible m f).
Proof.
  intros Hf. unfold getitem, eligible. simpl.
  rewrite decide_True by done. by destruct (f_rps_eligible_values m !! f).
Qed.

Lemma getitem_f_rps_eligible_true (m : Model) (f : string) :
  getitem (f_rps_eligible m) f = Ok true ↔ f ∈ FUELS m ∧ eligible m f = true.
Proof.
  split.
  - intros H. assert (f ∈ FUELS m) as Hf.
    { unfold getitem in H. simpl in H. by destruct (decide (f ∈ FUELS m)). }
    split; [done|]. rewrite getitem_f_rps_eligible in H by done. congruence.
  - intros [Hf He]. by rewrite getitem_f_rps_eligible, He.
Qed.

Lemma RPS_ENERGY_SOURCES_Ok (m : Model) :
  RPS_ENERGY_SOURCES m =
    Ok (list_to_set (NON_FUEL_ENERGY_SOURCES m) ∪
        list_to_set (List.filter (eligible m) (FUELS m))).
Proof.
  unfold RPS_ENERGY_SOURCES.
  rewrite (for_each_if_total _ (eligible m)); [done|].
  intros f Hf. by apply getitem_f_rps_eligible.
Qed.

(** C3. The set [RPS_ENERGY_SOURCES] is built without an exception and is
    exactly the union of [NON_FUEL_ENERGY_SOURCES] with the fuels of [FUELS]
    whose flag [f_rps_eligible] is true: it has every member of either and
    nothing else. *)
Theorem RPS_ENERGY_SOURCES_is_union (m : Model) :
  ∃ sources : gset string,
    RPS_ENERGY_SOURCES m = Ok sources ∧
    ∀ x, x ∈ sources ↔
         x ∈ NON_FUEL_ENERGY_SOURCES m ∨
         (x ∈ FUELS m ∧ getitem (f_rps_eligible m) x = Ok true).
Proof.
  eexists. split; [apply RPS_ENERGY_SOURCES_Ok|].
  intros x. rewrite elem_of_union, !elem_of_list_to_set.
  rewrite getitem_f_rps_eligible_true, !list_elem_of_In, filter_In. tauto.
Qed.

(** ** The enforcement constraint *)

Lemma Expression_in {A} (index : list string) (rule : string → result A) (k : string) :
  k ∈ index → Expression index rule k = rule k.
Proof. intros Hk. unfold Expression. by rewrite decide_True. Qed.

Lemma Constraint_lookup (index : list string) (rule : string → result inequality)
    (cs : list (string * inequality)) (p : string) :
  Constraint index rule = Ok cs → p ∈ index →
  ∃ c, rule p = Ok c ∧ (p, c) ∈ cs.
Proof.
  intros Hcs%for_each_Ok Hp.
  apply list_elem_of_lookup in Hp as [i Hi].
  destruct (Forall2_lookup_l _ _ _ _ _ Hcs Hi) as (pc & Hpc & Hrule).
  apply bind_Ok in Hrule as (c & Hc & [= <-]).
  exists c. split; [done|]. apply list_elem_of_lookup. eauto.
Qed.

(** C1. Whenever a solution satisfies the constraints of the model, then for
    every period of [RPS_PERIODS] the fuel and the non-fuel eligible energy
    have values whose sum is at least the target of the period times the
    total demand, the sum of [zone_total_demand_in_period_mwh] over all load
    zones. *)
Theorem RPS_Enforce_Target_feasible (m : Model) (sol : Solution) (p : string) :
  satisfies_RPS m sol →
  p ∈ RPS_PERIODS m →
  ∃ fe nfe target,
    RPSFuelEnergy m sol p = Ok fe ∧
    RPSNonFuelEnergy m sol p = Ok nfe ∧
    getitem (rps_target m) p = Ok target ∧
    target * py_sum (map (λ zone, zone_total_demand_in_period_mwh m zone p)
                         (LOAD_ZONES m))
      <= fe + nfe.
Proof.
  intros (cs & Hcs & Hall) Hp.
  destruct (Constraint_lookup _ _ _ _ Hcs Hp) as (c & Hc & Hin).
  rewrite Forall_forall in Hall. specialize (Hall _ Hin). simpl in Hall.
  unfold RPS_Enforce_Target_rule in Hc.
  apply bind_Ok in Hc as (fe & Hfe & Hc).
  apply bind_Ok in Hc as (nfe & Hnfe & Hc).
  apply bind_Ok in Hc as (target & Htarget & [= <-]).
  exists fe, nfe, target. repeat split; try done.
  by apply Qle_bool_iff in Hall.
Qed.

Lemma RPS_Enforce_Target_feasible_witness :
  ∃ fe nfe target,
    RPSFuelEnergy (example_model ["North"] demand_200)
      (example_solution dispatch_100_20_80) "P1" = Ok fe ∧
    RPSNonFuelEnergy (example_model ["North"] demand_200)
      (example_solution dispatch_100_20_80) "P1" = Ok nfe ∧
    getitem (rps_target (example_model ["North"] demand_200)) "P1" = Ok target ∧
    target * py_sum (map (λ zone, demand_200 zone "P1") ["North"]) <= fe + nfe.
Proof.
  apply (RPS_Enforce_Target_feasible (example_model ["North"] demand_200)
           (example_solution dispatch_100_20_80) "P1").
  - eexists. split; [vm_compute; reflexivity|]. repeat constructor.
  - left.
Defined.

(** ** The report *)

Lemma RPSNonFuelEnergy_in (m : Model) (sol : Solution) (p : string) :
  p ∈ RPS_PERIODS m →
  RPSNonFuelEnergy m sol p = RPSNonFuelEnergy_rule m sol p.
Proof. apply Expression_in. Qed.

Lemma py_div_1000 (x : Q) : py_div x 1000 = Ok (x / 1000).
Proof. by apply py_div_Ok. Qed.

(** C9. For a period of [RPS_PERIODS] whose total generation or total demand
    is zero, [get_row] produces no row; on an instance whose expression
    [RPSFuelEnergy] has a value, the exception is the division by zero. *)
Theorem get_row_division_by_zero (m : Model) (sol : Solution) (p : string) :
  p ∈ RPS_PERIODS m →
  total_generation_in_period m sol p == 0 ∨ total_demand_in_period m p == 0 →
  (∀ row, get_row m sol p ≠ Ok row) ∧
  (∀ fe, RPSFuelEnergy m sol p = Ok fe → get_row m sol p = Err ZeroDivisionError).
Proof.
  intros Hp Hzero.
  assert (∀ fe, RPSFuelEnergy m sol p = Ok fe →
                get_row m sol p = Err ZeroDivisionError) as Hdiv.
  { intros fe Hfe. unfold get_row.
    rewrite Hfe, (RPSNonFuelEnergy_in m sol p Hp). unfold RPSNonFuelEnergy_rule.
    run. rewrite !py_div_1000. run.
    destruct (Qeq_bool (total_generation_in_period m sol p) 0) eqn:Hg.
    - apply Qeq_bool_eq in Hg. by rewrite (py_div_zero _ _ Hg).
    - apply Qeq_bool_neq in Hg. destruct Hzero as [Hz|Hz]; [done|].
      rewrite (py_div_Ok _ _ Hg). run. by rewrite (py_div_zero _ _ Hz). }
  split; [|done].
  intros row Hrow. destruct (RPSFuelEnergy m sol p) as [fe|e] eqn:Hfe.
  - rewrite (Hdiv fe eq_refl) in Hrow. discriminate.
  - unfold get_row in Hrow. rewrite Hfe in Hrow. discriminate.
Qed.

Lemma get_row_division_by_zero_witness :
  (∀ row, get_row (example_model ["North"] demand_200)
            (example_solution (λ _, 0)) "P1" ≠ Ok row) ∧
  (∀ fe, RPSFuelEnergy (example_model ["North"] demand_200)
           (example_solution (λ _, 0)) "P1" = Ok fe →
         get_row (example_model ["North"] demand_200)
           (example_solution (λ _, 0)) "P1" = Err ZeroDivisionError).
Proof.
  apply (get_row_division_by_zero (example_model ["North"] demand_200)
           (example_solution (λ _, 0)) "P1").
  - left.
  - left. reflexivity.
Defined.

(** ** The fuel energy and the eligibility flags *)

Lemma for_each_ext {A B} (f f' : A → result B) (xs : list A) :
  (∀ x, x ∈ xs → f x = f' x) → for_each f xs = for_each f' xs.
Proof.
  induction xs as [|x xs IH]; intros Hf; [done|].
  rewrite !for_each_cons, (Hf x), IH; [done| |left].
  intros y Hy. apply Hf. by right.
Qed.

Lemma for_each_rel {A B} (R : B → B → Prop) (f f' : A → result B) (xs : list A) (ys : list B) :
  for_each f xs = Ok ys →
  (∀ x y, x ∈ xs → f x = Ok y → ∃ y', f' x = Ok y' ∧ R y y') →
  ∃ ys', for_each f' xs = Ok ys' ∧ Forall2 R ys ys'.
Proof.
  revert ys. induction xs as [|x xs IH]; intros ys.
  - intros [= <-] _. exists []. by split.
  - rewrite for_each_cons. intros (y & Hy & H)%bind_Ok Hrel.
    apply bind_Ok in H as (ys0 & Hys0 & [= <-]).
    destruct (Hrel x y) as (y' & Hy' & Hyy'); [left|done|].
    destruct (IH ys0 Hys0) as (ys' & Hys' & Hall).
    { intros x0 y0 Hx0. apply Hrel. by right. }
    exists (y' :: ys'). rewrite for_each_cons, Hy', Hys'. by split; [|constructor].
Qed.

Lemma for_each_if_Ok_true {A} (c : A → result bool) (xs ys : list A) :
  for_each_if c xs = Ok ys → ∀ y, y ∈ ys → c y = Ok true.
Proof.
  revert ys. induction xs as [|x xs IH]; intros ys.
  - intros [= <-] y Hy. by apply elem_of_nil in Hy.
  - rewrite for_each_if_cons. intros (b & Hb & H)%bind_Ok.
    apply bind_Ok in H as (ys0 & Hys0 & [= <-]).
    intros y Hy. destruct b; [|by eapply IH].
    apply elem_of_cons in Hy as [->|Hy]; [done|by eapply IH].
Qed.

(** Raising flags can only add non-negative terms to a filtered sum. *)
Lemma for_each_if_sum_le {A} (c c' : A → result bool) (v : A → Q) (xs ys : list A) :
  for_each_if c xs = Ok ys →
  (∀ x b, x ∈ xs → c x = Ok b → ∃ b', c' x = Ok b' ∧ (b = true → b' = true)) →
  (∀ x, 0 <= v x) →
  ∃ ys', for_each_if c' xs = Ok ys' ∧ py_sum (map v ys) <= py_sum (map v ys').
Proof.
  intros Hys Hc Hv. revert ys Hys Hc.
  induction xs as [|x xs IH]; intros ys.
  - intros [= <-] _. exists []. split; [done|apply Qle_refl].
  - rewrite for_each_if_cons. intros (b & Hb & H)%bind_Ok Hc.
    apply bind_Ok in H as (ys0 & Hys0 & [= <-]).
    destruct (Hc x b) as (b' & Hb' & Hbb'); [left|done|].
    destruct (IH ys0 Hys0) as (ys' & Hys' & Hle).
    { intros x0 b0 Hx0. apply Hc. by right. }
    exists (if b' then x :: ys' else ys').
    rewrite for_each_if_cons, Hb', Hys'. split; [done|].
    destruct b, b'; simpl; rewrite ?py_sum_cons.
    + by apply Qplus_le_compat; [apply Qle_refl|].
    + by discriminate Hbb'.
    + rewrite <- (Qplus_0_l (py_sum (map v ys0))). by apply Qplus_le_compat.
    + done.
Qed.

Lemma getitem_set_f_rps_eligible (m : Model) (f x : string) (b : bool) :
  getitem (f_rps_eligible m) x = Ok b →
  ∃ b', getitem (f_rps_eligible (set_f_rps_eligible m f true)) x = Ok b' ∧
        (b = true → b' = true).
Proof.
  unfold getitem. simpl. destruct (decide (x ∈ FUELS m)); [|done].
  destruct (decide (f = x)) as [->|Hne].
  - rewrite lookup_insert_eq. eauto.
  - rewrite lookup_insert_ne by done. intros H. by exists b.
Qed.

(** C10. With non-negative fuel use rates and timepoint weights and positive
    heat rates, changing the flag of a fuel from false to true and nothing
    else leaves [RPSFuelEnergy] of every RPS period with a value, and one
    that is not smaller than before. *)
Theorem RPSFuelEnergy_monotone (m : Model) (sol : Solution) (p f : string) (before : Q) :
  p ∈ RPS_PERIODS m →
  (∀ g t f', 0 <= GenFuelUseRate sol g t f') →
  (∀ t, 0 <= tp_weight m t) →
  (∀ g, 0 < gen_full_load_heat_rate m g) →
  getitem (f_rps_eligible m) f = Ok false →
  RPSFuelEnergy m sol p = Ok before →
  ∃ after,
    RPSFuelEnergy (set_f_rps_eligible m f true) sol p = Ok after ∧
    before <= after.
Proof.
  intros Hp Huse Hw Hhr _ Hbefore.
  unfold RPSFuelEnergy in *. rewrite Expression_in in * by done.
  unfold RPSFuelEnergy_rule in *.
  apply bind_Ok in Hbefore as (terms & Hterms & [= <-]).
  eapply (for_each_rel Qle) in Hterms as (terms' & Hterms' & Hle).
  - exists (py_sum terms'). split; [|by apply py_sum_le].
    unfold gen_tps in *. simpl. by rewrite Hterms'.
  - intros [g t] y _ Hy. simpl.
    apply bind_Ok in Hy as (used & Hused & Hy).
    unfold eligible_fuel_use in *.
    apply bind_Ok in Hused as (fs & Hfs & [= <-]).
    eapply (for_each_if_sum_le _ _ (GenFuelUseRate sol g t)) in Hfs
      as (fs' & Hfs' & Hsum); [|intros x b _; apply getitem_set_f_rps_eligible|done].
    simpl in Hfs'. rewrite Hfs'. run.
    assert (¬ gen_full_load_heat_rate m g == 0) as Hne.
    { intros H0. specialize (Hhr g). rewrite H0 in Hhr. by apply Qlt_irrefl in Hhr. }
    rewrite (py_div_Ok _ _ Hne) in Hy. rewrite (py_div_Ok _ _ Hne).
    injection Hy as <-.
    eexists. split; [done|]. unfold Qdiv.
    apply Qmult_le_compat_r; [|apply Qinv_le_0_compat, Qlt_le_weak, Hhr].
    rewrite !(Qmult_comm (tp_weight m t)). by apply Qmult_le_compat_r.
Qed.

Lemma RPSFuelEnergy_monotone_witness :
  ∃ after,
    RPSFuelEnergy (set_f_rps_eligible (example_model ["North"] demand_200) "Coal" true)
      (example_solution dispatch_100_20_80) "P1" = Ok after ∧
    2000 # 100 <= after.
Proof.
  apply (RPSFuelEnergy_monotone (example_model ["North"] demand_200)
           (example_solution dispatch_100_20_80) "P1" "Coal" (2000 # 100)).
  - left.
  - intros g t f'. simpl. unfold dispatch_100_20_80.
    repeat case_match; done.
  - done.
  - done.
  - reflexivity.
  - vm_compute. reflexivity.
Defined.

(** ** Construction of parameters and sets from loaded data *)

Section Construct_Param.
Context {V : Type} (index : list string) (within : cell → option V).


Lemma assign_Ok (acc : result (gmap string V)) (kc : string * cell) (vs : gmap string V) :
  assign index within acc kc = Ok vs ↔
  ∃ vs0 v, acc = Ok vs0 ∧ kc.1 ∈ index ∧ within kc.2 = Some v ∧
           vs = <[kc.1 := v]> vs0.
Proof.
  unfold assign. split.
  - intros (vs0 & -> & H)%bind_Ok.
    destruct (decide (kc.1 ∈ index)); [|done].
    destruct (within kc.2) as [v|]; [|done].
    injection H as <-. by exists vs0, v.
  - intros (vs0 & v & -> & Hk & Hv & ->). run.
    by rewrite decide_True, Hv.
Qed.

(** A successful construction has checked every assignment and holds values
    for the assigned keys only. *)
Lemma foldl_assign_Ok (data : list (string * cell)) (acc : result (gmap string V))
    (vs : gmap string V) :
  foldl (assign index within) acc data = Ok vs →
  ∃ vs0, acc = Ok vs0 ∧
    Forall (λ kc, kc.1 ∈ index ∧ is_Some (within kc.2)) data ∧
    ∀ k, k ∉ data.*1 → vs !! k = vs0 !! k.
Proof.
  revert acc. induction data as [|kc data IH]; intros acc; cbn [foldl].
  - intros ->. exists vs. by repeat split.
  - intros (vs1 & Hvs1 & Hall & Hlookup)%IH.
    apply assign_Ok in Hvs1 as (vs0 & v & -> & Hk & Hv & ->).
    exists vs0. repeat split; [by constructor|].
    intros k [Hne Hk']%not_elem_of_cons.
    rewrite Hlookup by done. by rewrite lookup_insert_ne.
Qed.



End Construct_Param.

Section Construct_Set.
Context (validate : string → bool).



End Construct_Set.

(** ** Input loading *)

Lemma load_aug_fuels (inputs_dir : gmap string TabFile) (d : DataPortal) :
  load_aug inputs_dir "fuels.tab" (Some ["fuel"; "f_rps_eligible"])
    ["f_rps_eligible"] None ["f_rps_eligible"] d =
  match inputs_dir !! "fuels.tab" with
  | None => (Err IOError, d)
  | Some tab =>
      (Ok (),
       if bool_decide ("f_rps_eligible" ∈ value_columns tab)
       then add_param_data "f_rps_eligible" (assignments tab "f_rps_eligible") d
       else d)
  end.
Proof.
  unfold load_aug. destruct (inputs_dir !! "fuels.tab") as [tab|]; [|done].
  cbn [forallb]. cbv zeta. rewrite filter_cons, filter_nil.
  assert (bool_decide ("f_rps_eligible" ∈ ["fuel"; "f_rps_eligible"]) = true) as ->
    by (apply bool_decide_eq_true; set_solver).
  assert (bool_decide ("f_rps_eligible" ∈ ["f_rps_eligible"]) = true) as ->
    by (apply bool_decide_eq_true; set_solver).
  rewrite orb_true_r, !andb_true_r.
  destruct (bool_decide ("f_rps_eligible" ∈ value_columns tab)).
  - by rewrite decide_True.
  - by rewrite decide_False.
Qed.

Lemma load_aug_targets (inputs_dir : gmap string TabFile) (d : DataPortal) :
  load_aug inputs_dir "rps_targets.tab" None [] (Some "RPS_PERIODS") ["rps_target"] d =
  match inputs_dir !! "rps_targets.tab" with
  | None => (Err IOError, d)
  | Some tab =>
      if bool_decide ("rps_target" ∈ value_columns tab)
      then (Ok (),
            add_param_data "rps_target" (assignments tab "rps_target")
              (add_set_data "RPS_PERIODS" (map fst (rows tab)) d))
      else (Err ValueError, d)
  end.
Proof.
  unfold load_aug. destruct (inputs_dir !! "rps_targets.tab") as [tab|]; [|done].
  cbn [forallb]. cbv zeta. rewrite filter_cons, filter_nil.
  assert (bool_decide ("rps_target" ∈ @nil string) = false) as ->
    by (apply bool_decide_eq_false; set_solver).
  rewrite orb_false_r, !andb_true_r.
  destruct (bool_decide ("rps_target" ∈ value_columns tab)).
  - by rewrite decide_True.
  - done.
Qed.

Lemma load_inputs_unfold (inputs_dir : gmap string TabFile) (d : DataPortal) :
  load_inputs inputs_dir d =
  match inputs_dir !! "fuels.tab" with
  | None => (Err IOError, d)
  | Some fuels =>
      let d1 := if bool_decide ("f_rps_eligible" ∈ value_columns fuels)
                then add_param_data "f_rps_eligible" (assignments fuels "f_rps_eligible") d
                else d in
      match inputs_dir !! "rps_targets.tab" with
      | None => (Err IOError, d1)
      | Some targets =>
          if bool_decide ("rps_target" ∈ value_columns targets)
          then (Ok (),
                add_param_data "rps_target" (assignments targets "rps_target")
                  (add_set_data "RPS_PERIODS" (map fst (rows targets)) d1))
          else (Err ValueError, d1)
      end
  end.
Proof.
  unfold load_inputs. rewrite load_aug_fuels.
  destruct (inputs_dir !! "fuels.tab") as [fuels|]; [|done].
  by rewrite load_aug_targets.
Qed.

Lemma loaded_param_add_param_data (name name' : string) (kvs : list (string * cell))
    (d : DataPortal) :
  loaded_param (add_param_data name kvs d) name' =
    if decide (name = name') then loaded_param d name ++ kvs else loaded_param d name'.
Proof.
  unfold loaded_param, add_param_data. simpl.
  destruct (decide (name = name')) as [->|Hne].
  - by rewrite lookup_insert_eq.
  - by rewrite lookup_insert_ne.
Qed.

Lemma loaded_param_add_set_data (name name' : string) (ks : list string) (d : DataPortal) :
  loaded_param (add_set_data name ks d) name' = loaded_param d name'.
Proof. reflexivity. Qed.

Lemma loaded_set_add_param_data (name name' : string) (kvs : list (string * cell))
    (d : DataPortal) :
  loaded_set (add_param_data name kvs d) name' = loaded_set d name'.
Proof. reflexivity. Qed.

Lemma loaded_set_add_set_data (name : string) (ks : list string) (d : DataPortal) :
  loaded_set (add_set_data name ks d) name = loaded_set d name ++ ks.
Proof. unfold loaded_set, add_set_data. simpl. by rewrite lookup_insert_eq. Qed.

(** C8. The targets file is mandatory: without rps_targets.tab in the
    inputs directory [load_inputs] ends with the load error and does not
    succeed, whatever else the directory holds. The eligibility column is
    optional: with both files present and the column rps_target in the
    targets file, loading succeeds whether or not fuels.tab has the column
    f_rps_eligible, and without the column no eligibility is loaded. *)
Theorem load_inputs_targets_mandatory (inputs_dir : gmap string TabFile)
    (switch_data : DataPortal) :
  (inputs_dir !! "rps_targets.tab" = None →
   (load_inputs inputs_dir switch_data).1 = Err IOError) ∧
  (∀ fuels targets,
     inputs_dir !! "fuels.tab" = Some fuels →
     inputs_dir !! "rps_targets.tab" = Some targets →
     "rps_target" ∈ value_columns targets →
     (load_inputs inputs_dir switch_data).1 = Ok () ∧
     ("f_rps_eligible" ∉ value_columns fuels →
      loaded_param (load_inputs inputs_dir switch_data).2 "f_rps_eligible" =
        loaded_param switch_data "f_rps_eligible")).
Proof.
  rewrite load_inputs_unfold. split.
  - intros ->. by destruct (inputs_dir !! "fuels.tab").
  - intros fuels targets -> -> Hcol. cbn zeta.
    rewrite (bool_decide_eq_true_2 _ Hcol). split; [done|].
    intros Hno. rewrite (bool_decide_eq_false_2 _ Hno). cbn [snd].
    rewrite loaded_param_add_param_data, decide_False by done.
    apply loaded_param_add_set_data.
Qed.

Lemma load_inputs_targets_mandatory_witness :
  (load_inputs (delete "rps_targets.tab" example_inputs) empty_portal).1 = Err IOError ∧
  ((load_inputs example_inputs_without_column empty_portal).1 = Ok () ∧
   ("f_rps_eligible" ∉ value_columns fuels_tab_without_column →
    loaded_param (load_inputs example_inputs_without_column empty_portal).2 "f_rps_eligible" =
      loaded_param empty_portal "f_rps_eligible")).
Proof.
  split.
  - apply (proj1 (load_inputs_targets_mandatory
                    (delete "rps_targets.tab" example_inputs) empty_portal)).
    apply lookup_delete_eq.
  - apply (proj2 (load_inputs_targets_mandatory example_inputs_without_column empty_portal)
             fuels_tab_without_column rps_targets_tab).
    + reflexivity.
    + reflexivity.
    + left.
Defined.

(** ** Validation of the RPS periods and targets *)

Lemma define_components_Ok (mod_ : Host) (data : DataPortal) (m : Model) :
  define_components mod_ data = Ok m ↔
  ∃ eligible periods targets,
    construct_Param (FUELS mod_) Boolean (loaded_param data "f_rps_eligible") = Ok eligible ∧
    construct_Set (RPS_PERIODS_validate mod_) (loaded_set data "RPS_PERIODS") = Ok periods ∧
    construct_Param periods PercentFraction (loaded_param data "rps_target") = Ok targets ∧
    m = {| host := mod_; f_rps_eligible_values := eligible;
           RPS_PERIODS := periods; rps_target_values := targets |}.
Proof.
  unfold define_components. split.
  - intros (eligible & He & H)%bind_Ok.
    apply bind_Ok in H as (periods & Hp & H).
    apply bind_Ok in H as (targets & Ht & [= <-]).
    by exists eligible, periods, targets.
  - intros (eligible & periods & targets & -> & -> & Ht & ->). run.
    by rewrite Ht.
Qed.








(** ** Fuels without a loaded eligibility *)

Lemma RPSFuelEnergy_ignores_ineligible (m : Model) (f : string) (sol sol' : Solution)
    (p : string) :
  getitem (f_rps_eligible m) f = Ok false →
  same_except_fuel f sol sol' →
  RPSFuelEnergy m sol p = RPSFuelEnergy m sol' p.
Proof.
  intros Hf [_ Hsame]. unfold RPSFuelEnergy, Expression.
  destruct (decide (p ∈ RPS_PERIODS m)); [|done].
  unfold RPSFuelEnergy_rule. f_equal. apply for_each_ext.
  intros [g t] _. f_equal. unfold eligible_fuel_use.
  destruct (for_each_if _ (FUELS_FOR_GEN m g)) as [fs|err] eqn:Hfs; [|done].
  run. do 2 f_equal. apply map_ext_in. intros x Hx%list_elem_of_In.
  apply Hsame. intros ->.
  pose proof (for_each_if_Ok_true _ _ _ Hfs f Hx). congruence.
Qed.

Lemma assignments_keys (tab : TabFile) (name k : string) :
  k ∈ (assignments tab name).*1 →
  ∃ row c, (k, row) ∈ rows tab ∧ row !! name = Some c.
Proof.
  intros ([k' c] & -> & Hin)%list_elem_of_fmap.
  apply list_elem_of_omap in Hin as ([k0 row] & Hrow & Hkc). simpl in Hkc.
  destruct (row !! name) as [c0|] eqn:Hc; [|done]. injection Hkc as -> ->.
  by exists row, c.
Qed.

Lemma loaded_eligibility (inputs_dir : gmap string TabFile) (switch_data data : DataPortal)
    (f : string) :
  loaded_param switch_data "f_rps_eligible" = [] →
  load_inputs inputs_dir switch_data = (Ok (), data) →
  ¬ eligibility_assigned inputs_dir f →
  f ∉ (loaded_param data "f_rps_eligible").*1.
Proof.
  rewrite load_inputs_unfold. intros Hnone Hload Hnot.
  destruct (inputs_dir !! "fuels.tab") as [fuels|] eqn:Hfuels; [|done].
  destruct (inputs_dir !! "rps_targets.tab") as [targets|]; [|done].
  cbn zeta in Hload.
  destruct (bool_decide ("rps_target" ∈ value_columns targets)); [|done].
  injection Hload as <-.
  rewrite loaded_param_add_param_data, decide_False by done.
  rewrite loaded_param_add_set_data.
  destruct (bool_decide ("f_rps_eligible" ∈ value_columns fuels)) eqn:Hcol.
  - rewrite loaded_param_add_param_data, decide_True, Hnone by done.
    intros (row & c & Hrow & Hc)%assignments_keys. apply Hnot.
    exists fuels, row, c. by apply bool_decide_eq_true in Hcol.
  - rewrite Hnone. apply not_elem_of_nil.
Qed.

(** C4. Let the input files be loaded into a portal that holds no
    eligibility yet, and the model be built from the result. A fuel of
    [FUELS] to which the files assign no eligibility, which includes every
    fuel when fuels.tab has no column f_rps_eligible, has the flag false.
    The fuel is then outside [RPS_ENERGY_SOURCES] (a fuel is not also a
    non-fuel source), and [RPSFuelEnergy] does not depend on how much of it
    is used. *)
Theorem f_rps_eligible_default_false (mod_ : Host) (inputs_dir : gmap string TabFile)
    (switch_data data : DataPortal) (m : Model) (f : string) :
  loaded_param switch_data "f_rps_eligible" = [] →
  load_inputs inputs_dir switch_data = (Ok (), data) →
  define_components mod_ data = Ok m →
  f ∈ FUELS mod_ →
  f ∉ NON_FUEL_ENERGY_SOURCES mod_ →
  ¬ eligibility_assigned inputs_dir f →
  getitem (f_rps_eligible m) f = Ok false ∧
  (∃ sources, RPS_ENERGY_SOURCES m = Ok sources ∧ f ∉ sources) ∧
  (∀ sol sol' p, same_except_fuel f sol sol' →
                 RPSFuelEnergy m sol p = RPSFuelEnergy m sol' p).
Proof.
  intros Hnone Hload Hm Hf Hnon Hnot.
  apply define_components_Ok in Hm
    as (flags & periods & targets & Hflags & _ & _ & ->).
  apply foldl_assign_Ok in Hflags as (? & [= <-] & _ & Hlookup).
  specialize (Hlookup f (loaded_eligibility _ _ _ _ Hnone Hload Hnot)).
  rewrite lookup_empty in Hlookup.
  set (m := {| host := mod_; f_rps_eligible_values := flags;
               RPS_PERIODS := periods; rps_target_values := targets |}).
  assert (getitem (f_rps_eligible m) f = Ok false) as Hfalse.
  { rewrite getitem_f_rps_eligible by done. unfold eligible. simpl.
    by rewrite Hlookup. }
  split; [done|]. split.
  - eexists. split; [apply RPS_ENERGY_SOURCES_Ok|].
    rewrite elem_of_union, !elem_of_list_to_set. intros [Hin|Hin]; [done|].
    apply list_elem_of_In, filter_In in Hin as [_ Htrue].
    rewrite getitem_f_rps_eligible in Hfalse by done. congruence.
  - intros sol sol' p. by apply RPSFuelEnergy_ignores_ineligible.
Qed.

Lemma f_rps_eligible_default_false_witness :
  getitem (f_rps_eligible (example_model_without_flags ["North"] demand_200)) "Biomass"
    = Ok false ∧
  (∃ sources,
     RPS_ENERGY_SOURCES (example_model_without_flags ["North"] demand_200) = Ok sources ∧
     "Biomass" ∉ sources) ∧
  (∀ sol sol' p, same_except_fuel "Biomass" sol sol' →
     RPSFuelEnergy (example_model_without_flags ["North"] demand_200) sol p =
     RPSFuelEnergy (example_model_without_flags ["North"] demand_200) sol' p).
Proof.
  apply (f_rps_eligible_default_false (example_host ["North"] demand_200)
           example_inputs_without_column empty_portal
           (load_inputs example_inputs_without_column empty_portal).2).
  - reflexivity.
  - vm_compute. reflexivity.
  - vm_compute. reflexivity.
  - left.
  - intros Hin. apply list_elem_of_singleton in Hin. discriminate.
  - intros (tab & row & c & Htab & Hcol & _).
    vm_compute in Htab. injection Htab as <-. by apply elem_of_nil in Hcol.
Defined.

(** ** The two-period system, end to end *)


(** ** The reporting scenario *)

(** The sales entry of a row is the total demand as it is, in the base unit. *)
Lemma get_row_sales_entry (m : Model) (sol : Solution) (p p' : string) (row : list Q) :
  get_row m sol p = Ok (p', row) →
  row !! 4%nat = Some (total_demand_in_period m p).
Proof.
  unfold get_row. intros (e1 & _ & H)%bind_Ok.
  apply bind_Ok in H as (e2 & _ & H). apply bind_Ok in H as (e3 & _ & H).
  apply bind_Ok in H as (e4 & _ & H). apply bind_Ok in H as (e6 & _ & H).
  by injection H as <- <-.
Qed.

(** C2. On the instance with RPSFuelEnergy = 20000, RPSNonFuelEnergy =
    100000, a total generation of 150000 and a total demand of 140000,
    [get_row] gives 20, 100 and 150 for the first three entries and the
    fractions 4/5 and 6/7, but the entry under TotalSalesInPeriodGWh is
    140000, the demand that was not divided by 1000, and not 140. *)
Theorem get_row_reporting_scenario :
  ∃ fe nfe row sales,
    RPSFuelEnergy (example_model ["North"] demand_report)
      (example_solution dispatch_report) "P1" = Ok fe ∧
    fe == 20000 ∧
    RPSNonFuelEnergy (example_model ["North"] demand_report)
      (example_solution dispatch_report) "P1" = Ok nfe ∧
    nfe == 100000 ∧
    total_generation_in_period (example_model ["North"] demand_report)
      (example_solution dispatch_report) "P1" == 150000 ∧
    total_demand_in_period (example_model ["North"] demand_report) "P1" == 140000 ∧
    get_row (example_model ["North"] demand_report)
      (example_solution dispatch_report) "P1" = Ok ("P1", row) ∧
    Forall2 Qeq row [20; 100; 150; 4 # 5; 140000; 6 # 7] ∧
    row !! 4%nat = Some sales ∧
    ¬ sales == 140.
Proof.
  eexists _, _, _, _.
  split; [vm_compute; reflexivity|]. split; [done|].
  split; [vm_compute; reflexivity|]. split; [done|].
  split; [done|]. split; [done|].
  split; [vm_compute; reflexivity|].
  split; [by repeat constructor|].
  split; [reflexivity|]. by intros [=].
Qed.

Lemma post_solve_rows (instance : Model) (sol : Solution) (header : list string)
    (table : list (string * list Q)) :
  post_solve instance sol = Ok (header, table) →
  header = headings ∧
  Forall2 (λ p row, get_row instance sol p = Ok row) (RPS_PERIODS instance) table.
Proof.
  unfold post_solve, write_table.
  intros (table' & Htable & [= <- <-])%bind_Ok.
  split; [done|]. by apply for_each_Ok.
Qed.

(** ** When the fuel energy has a value *)

Lemma elem_of_gen_tps (m : Model) (gens : list string) (p g t : string) :
  (g, t) ∈ gen_tps m gens p ↔ g ∈ gens ∧ t ∈ TPS_FOR_GEN_IN_PERIOD m g p.
Proof.
  unfold gen_tps. rewrite list_elem_of_bind. split.
  - intros (g' & Hin & Hg').
    apply list_elem_of_bind in Hin as (t' & Hin & Ht').
    apply list_elem_of_singleton in Hin. by simplify_eq.
  - intros [Hg Ht]. exists g. split; [|done].
    apply list_elem_of_bind. exists t. split; [|done].
    by apply list_elem_of_singleton.
Qed.

(** On a host whose fuel-based projects burn fuels of [FUELS] and have
    non-zero heat rates, the expression has a value in every RPS period. *)
Lemma RPSFuelEnergy_defined (m : Model) (sol : Solution) (p : string) :
  p ∈ RPS_PERIODS m →
  (∀ g, g ∈ FUEL_BASED_GENS m → ¬ gen_full_load_heat_rate m g == 0) →
  (∀ g f, g ∈ FUEL_BASED_GENS m → f ∈ FUELS_FOR_GEN m g → f ∈ FUELS m) →
  ∃ v, RPSFuelEnergy m sol p = Ok v.
Proof.
  intros Hp Hhr Hfuels. unfold RPSFuelEnergy. rewrite Expression_in by done.
  unfold RPSFuelEnergy_rule.
  rewrite (for_each_total _
    (λ gt : string * string,
       tp_weight m gt.2 *
       py_sum (map (GenFuelUseRate sol gt.1 gt.2)
                 (List.filter (eligible m) (FUELS_FOR_GEN m gt.1))) /
       gen_full_load_heat_rate m gt.1)).
  - by eexists.
  - intros [g t] [Hg _]%elem_of_gen_tps. unfold eligible_fuel_use.
    rewrite (for_each_if_total _ (eligible m)).
    + run. by apply py_div_Ok, Hhr.
    + intros f Hf. apply getitem_f_rps_eligible. by eapply Hfuels.
Qed.

(** ** Checks on concrete inputs *)

Example RPS_ENERGY_SOURCES_example :
  RPS_ENERGY_SOURCES (example_model ["North"] demand_200) = Ok {[ "Wind"; "Biomass" ]}.
Proof. by vm_compute. Qed.

Example RPS_PERIODS_rejects_unknown_period :
  construct_Set (RPS_PERIODS_validate (example_host ["North"] demand_200)) ["P1"; "P3"]
    = Err ValueError.
Proof. reflexivity. Qed.

Example RPS_PERIODS_accepts_known_periods :
  construct_Set (RPS_PERIODS_validate (example_host ["North"] demand_200)) ["P2"; "P1"; "P2"]
    = Ok ["P2"; "P1"].
Proof. reflexivity. Qed.

Example rps_target_rejects_above_one :
  construct_Param ["P1"] PercentFraction [("P1", CNum (3 # 2))] = Err ValueError.
Proof. reflexivity. Qed.

Example rps_target_rejects_negative :
  construct_Param ["P1"; "P2"] PercentFraction
    [("P1", CNum (1 # 2)); ("P2", CNum (-1 # 10))] = Err ValueError.
Proof. reflexivity. Qed.

Example rps_target_accepts_bounds :
  construct_Param ["P1"; "P2"] PercentFraction [("P1", CNum 0); ("P2", CNum 1)]
    = Ok {[ "P1" := 0; "P2" := 1 ]}.
Proof. by vm_compute. Qed.

Example load_inputs_without_targets_file :
  (load_inputs (delete "rps_targets.tab" example_inputs) empty_portal).1 = Err IOError.
Proof. by vm_compute. Qed.

Example load_inputs_without_eligibility_column :
  (load_inputs example_inputs_without_column empty_portal).1 = Ok ().
Proof. by vm_compute. Qed.

Example define_components_without_eligibility_column :
  define_components (example_host ["North"] demand_200)
    (load_inputs example_inputs_without_column empty_portal).2
  = Ok (example_model_without_flags ["North"] demand_200).
Proof. by vm_compute. Qed.

Example get_row_without_generation :
  get_row (example_model ["North"] demand_200) (example_solution (λ _, 0)) "P1"
    = Err ZeroDivisionError.
Proof. by vm_compute. Qed.

Example get_row_without_demand :
  get_row (example_model [] demand_200) (example_solution dispatch_100_20_80) "P1"
    = Err ZeroDivisionError.
Proof. by vm_compute. Qed.

(** * Further properties of the module *)

(** ** More on sums and comprehensions *)



Lemma py_sum_zero (xs : list Q) : Forall (λ x, x == 0) xs → py_sum xs == 0.
Proof.
  induction 1 as [|x xs Hx _ IH]; [reflexivity|].
  rewrite py_sum_cons, Hx, IH. ring.
Qed.

Lemma py_sum_Permutation (xs ys : list Q) : xs ≡ₚ ys → py_sum xs == py_sum ys.
Proof.
  induction 1 as [|x xs ys _ IH|x y xs|xs ys zs _ IH1 _ IH2].
  - reflexivity.
  - by rewrite !py_sum_cons, IH.
  - rewrite !py_sum_cons. ring.
  - by rewrite IH1.
Qed.

Lemma py_div_Ok_inv (x y z : Q) : py_div x y = Ok z → ¬ y == 0 ∧ z = x / y.
Proof.
  unfold py_div. destruct (Qeq_bool y 0) eqn:E; [done|].
  intros [= <-]. split; [|done]. by apply Qeq_bool_neq.
Qed.

Lemma Expression_Ok_in {A} (index : list string) (rule : string → result A)
    (k : string) (a : A) :
  Expression index rule k = Ok a → k ∈ index ∧ rule k = Ok a.
Proof. unfold Expression. by destruct (decide (k ∈ index)). Qed.

(** The results of a comprehension that evaluates inherit what holds of
    every element that evaluates. *)
Lemma for_each_Ok_Forall {A B} (P : B → Prop) (f : A → result B) (xs : list A)
    (ys : list B) :
  for_each f xs = Ok ys →
  (∀ x y, x ∈ xs → f x = Ok y → P y) →
  Forall P ys.
Proof.
  revert ys. induction xs as [|x xs IH]; intros ys.
  - intros [= <-] _. constructor.
  - rewrite for_each_cons. intros (y & Hy & H)%bind_Ok HP.
    apply bind_Ok in H as (ys0 & Hys0 & [= <-]). constructor.
    + apply (HP x); [left|done].
    + apply IH; [done|]. intros x0 y0 Hx0. apply HP. by right.
Qed.

Lemma for_each_app {A B} (f : A → result B) (xs xs' : list A) (ys : list B) :
  for_each f (xs ++ xs') = Ok ys ↔
  ∃ ys1 ys2, for_each f xs = Ok ys1 ∧ for_each f xs' = Ok ys2 ∧ ys = ys1 ++ ys2.
Proof.
  revert ys. induction xs as [|x xs IH]; intros ys; simpl app.
  - split.
    + intros H. by exists [], ys.
    + by intros (ys1 & ys2 & [= <-] & H & ->).
  - split.
    + rewrite for_each_cons.
      intros (y & Hy & H)%bind_Ok. apply bind_Ok in H as (ys0 & H & [= <-]).
      apply IH in H as (ys1 & ys2 & H1 & H2 & ->).
      exists (y :: ys1), ys2. rewrite for_each_cons, Hy, H1. by repeat split.
    + intros (ys1 & ys2 & H1 & H2 & ->). rewrite for_each_cons in H1.
      rewrite for_each_cons.
      apply bind_Ok in H1 as (y & Hy & H1).
      apply bind_Ok in H1 as (ys0 & H1 & [= <-]).
      rewrite Hy. run.
      assert (for_each f (xs ++ xs') = Ok (ys0 ++ ys2)) as ->; [|done].
      apply IH. by exists ys0, ys2.
Qed.

(** Evaluating the elements in another order gives the same results in that
    order, when all of them evaluate. *)
Lemma for_each_Permutation {A B} (f : A → result B) (xs xs' : list A) (ys : list B) :
  xs ≡ₚ xs' → for_each f xs = Ok ys →
  ∃ ys', for_each f xs' = Ok ys' ∧ ys ≡ₚ ys'.
Proof.
  intros Hperm. revert ys.
  induction Hperm as [|x xs xs' _ IH|x y xs|xs xs' xs'' _ IH1 _ IH2]; intros ys.
  - intros [= <-]. by exists [].
  - rewrite for_each_cons. intros (y & Hy & H)%bind_Ok.
    apply bind_Ok in H as (ys0 & H & [= <-]).
    destruct (IH _ H) as (ys' & Hys' & Hp).
    exists (y :: ys'). rewrite for_each_cons, Hy, Hys'. split; [done|].
    by constructor.
  - rewrite !for_each_cons. intros (b & Hb & H)%bind_Ok.
    apply bind_Ok in H as (ys0 & H & [= <-]).
    apply bind_Ok in H as (a & Ha & H).
    apply bind_Ok in H as (ys1 & H & [= <-]).
    exists (a :: b :: ys1). rewrite Ha, Hb, H.
    split; [done|]. apply perm_swap.
  - intros H. destruct (IH1 _ H) as (ys' & Hys' & Hp1).
    destruct (IH2 _ Hys') as (ys'' & Hys'' & Hp2).
    exists ys''. split; [done|]. by etrans.
Qed.


Lemma for_each_all_Ok {A B} (f : A → result B) (xs : list A) :
  (∀ x, x ∈ xs → ∃ y, f x = Ok y) → ∃ ys, for_each f xs = Ok ys.
Proof.
  induction xs as [|x xs IH]; intros Hf; [by exists []|].
  destruct (Hf x) as [y Hy]; [left|].
  destruct IH as [ys Hys]; [intros x0 Hx0; apply Hf; by right|].
  exists (y :: ys). by rewrite for_each_cons, Hy, Hys.
Qed.

Lemma Forall_map_nonneg {A} (v : A → Q) (xs : list A) :
  (∀ x, 0 <= v x) → Forall (Qle 0) (map v xs).
Proof. intros Hv. induction xs; constructor; auto. Qed.

(** ** The constraint list *)

Lemma RPS_Enforce_Target_rule_Ok (m : Model) (sol : Solution) (p : string) (c : inequality) :
  RPS_Enforce_Target_rule m sol p = Ok c ↔
  ∃ fe nfe target,
    RPSFuelEnergy m sol p = Ok fe ∧
    RPSNonFuelEnergy m sol p = Ok nfe ∧
    getitem (rps_target m) p = Ok target ∧
    c = GreaterEq (fe + nfe) (target * total_demand_in_period m p).
Proof.
  unfold RPS_Enforce_Target_rule. split.
  - intros (fe & Hfe & H)%bind_Ok. apply bind_Ok in H as (nfe & Hnfe & H).
    apply bind_Ok in H as (target & Htarget & [= <-]).
    by exists fe, nfe, target.
  - intros (fe & nfe & target & -> & -> & Htarget & ->). run.
    by rewrite Htarget.
Qed.

Lemma satisfies_RPS_period (m : Model) (sol : Solution) (p : string) :
  satisfies_RPS m sol → p ∈ RPS_PERIODS m →
  ∃ fe nfe target,
    RPSFuelEnergy m sol p = Ok fe ∧
    RPSNonFuelEnergy m sol p = Ok nfe ∧
    getitem (rps_target m) p = Ok target ∧
    target * total_demand_in_period m p <= fe + nfe.
Proof.
  intros (cs & Hcs & Hall) Hp.
  destruct (Constraint_lookup _ _ _ _ Hcs Hp) as (c & Hc & Hin).
  rewrite Forall_forall in Hall. specialize (Hall _ Hin). simpl in Hall.
  apply RPS_Enforce_Target_rule_Ok in Hc as (fe & nfe & target & ? & ? & ? & ->).
  exists fe, nfe, target. repeat split; try done. by apply Qle_bool_iff in Hall.
Qed.

Lemma Constraint_all_Ok (index : list string) (rule : string → result inequality) :
  (∀ p, p ∈ index → ∃ c, rule p = Ok c ∧ holds c = true) →
  ∃ cs, Constraint index rule = Ok cs ∧ Forall (λ pc, holds pc.2 = true) cs.
Proof.
  intros Hall.
  destruct (for_each_all_Ok (λ p, c ← rule p; Ok (p, c)) index) as [cs Hcs].
  { intros p Hp. destruct (Hall p Hp) as (c & -> & _). by eexists. }
  exists cs. split; [done|].
  eapply for_each_Ok_Forall; [exact Hcs|].
  intros p pc Hp (c & Hc & [= <-])%bind_Ok. simpl.
  destruct (Hall p Hp) as (c' & Hc' & Hholds). congruence.
Qed.

(** X1. A solution satisfies the constraints of the module exactly when, for
    every period of [RPS_PERIODS], both energy expressions and the target
    have values and the target times the total demand is at most the sum
    of the two energies. *)
Theorem satisfies_RPS_iff (m : Model) (sol : Solution) :
  satisfies_RPS m sol ↔
  ∀ p, p ∈ RPS_PERIODS m →
    ∃ fe nfe target,
      RPSFuelEnergy m sol p = Ok fe ∧
      RPSNonFuelEnergy m sol p = Ok nfe ∧
      getitem (rps_target m) p = Ok target ∧
      target * total_demand_in_period m p <= fe + nfe.
Proof.
  split.
  - intros Hsat p Hp. by apply satisfies_RPS_period.
  - intros Hall. apply Constraint_all_Ok. intros p Hp.
    destruct (Hall p Hp) as (fe & nfe & target & Hfe & Hnfe & Htarget & Hle).
    eexists. split.
    + apply RPS_Enforce_Target_rule_Ok. by exists fe, nfe, target.
    + unfold holds. simpl. by apply Qle_bool_iff.
Qed.

(** X2. The constraint list has one entry per period of [RPS_PERIODS], in the
    order of the set, and no entry for any other period. *)
Theorem RPS_Enforce_Target_periods (m : Model) (sol : Solution)
    (cs : list (string * inequality)) :
  RPS_Enforce_Target m sol = Ok cs →
  cs.*1 = RPS_PERIODS m.
Proof.
  unfold RPS_Enforce_Target, Constraint. generalize (RPS_PERIODS m) as periods.
  intros periods. revert cs. induction periods as [|p periods IH]; intros cs.
  - by intros [= <-].
  - rewrite for_each_cons. intros (pc & Hpc & H)%bind_Ok.
    apply bind_Ok in H as (cs0 & Hcs0 & [= <-]).
    apply bind_Ok in Hpc as (c & _ & [= <-]).
    rewrite fmap_cons. simpl. f_equal. by apply IH.
Qed.

Lemma RPS_Enforce_Target_periods_witness :
  ["P1"] = RPS_PERIODS (example_model ["North"] demand_200).
Proof.
  apply (RPS_Enforce_Target_periods (example_model ["North"] demand_200)
           (example_solution dispatch_100_20_80)
           [("P1", GreaterEq ((2000 # 100) + 100) ((1 # 2) * (0 + 200)))]).
  vm_compute. reflexivity.
Defined.

(** ** Signs and edge cases of the energy expressions *)

Lemma eligible_fuel_use_nonneg (m : Model) (sol : Solution) (g t : string) (used : Q) :
  (∀ g t f, 0 <= GenFuelUseRate sol g t f) →
  eligible_fuel_use m sol g t = Ok used → 0 <= used.
Proof.
  intros Huse (fs & _ & [= <-])%bind_Ok.
  apply py_sum_nonneg, Forall_map_nonneg. intros f. apply Huse.
Qed.

Lemma RPSFuelEnergy_nonneg (m : Model) (sol : Solution) (p : string) (fe : Q) :
  (∀ g t f, 0 <= GenFuelUseRate sol g t f) →
  (∀ t, 0 <= tp_weight m t) →
  (∀ g, 0 <= gen_full_load_heat_rate m g) →
  RPSFuelEnergy m sol p = Ok fe → 0 <= fe.
Proof.
  intros Huse Hw Hhr [_ Hfe]%Expression_Ok_in.
  apply bind_Ok in Hfe as (terms & Hterms & [= <-]).
  apply py_sum_nonneg. eapply for_each_Ok_Forall; [exact Hterms|].
  intros [g t] y _ (used & Hused & Hy)%bind_Ok.
  apply py_div_Ok_inv in Hy as [_ ->]. unfold Qdiv.
  apply Qmult_le_0_compat; [|by apply Qinv_le_0_compat].
  apply Qmult_le_0_compat; [done|]. by eapply eligible_fuel_use_nonneg.
Qed.

Lemma RPSNonFuelEnergy_nonneg (m : Model) (sol : Solution) (p : string) (nfe : Q) :
  (∀ g t, 0 <= DispatchGen sol g t) →
  (∀ t, 0 <= tp_weight m t) →
  RPSNonFuelEnergy m sol p = Ok nfe → 0 <= nfe.
Proof.
  intros Hdispatch Hw [_ [= <-]]%Expression_Ok_in.
  apply py_sum_nonneg, Forall_map_nonneg. intros [g t].
  by apply Qmult_le_0_compat.
Qed.

(** X3. With non-negative fuel use, dispatch, timepoint weights and heat
    rates, the values of [RPSFuelEnergy] and of [RPSNonFuelEnergy] are never
    negative. *)
Theorem eligible_energy_nonneg (m : Model) (sol : Solution) (p : string) :
  (∀ g t f, 0 <= GenFuelUseRate sol g t f) →
  (∀ g t, 0 <= DispatchGen sol g t) →
  (∀ t, 0 <= tp_weight m t) →
  (∀ g, 0 <= gen_full_load_heat_rate m g) →
  (∀ fe, RPSFuelEnergy m sol p = Ok fe → 0 <= fe) ∧
  (∀ nfe, RPSNonFuelEnergy m sol p = Ok nfe → 0 <= nfe).
Proof.
  intros Huse Hdispatch Hw Hhr. split.
  - intros fe. by apply RPSFuelEnergy_nonneg.
  - intros nfe. by apply RPSNonFuelEnergy_nonneg.
Qed.

Lemma example_solution_nonneg :
  (∀ g t f, 0 <= GenFuelUseRate (example_solution dispatch_100_20_80) g t f) ∧
  (∀ g t, 0 <= DispatchGen (example_solution dispatch_100_20_80) g t).
Proof.
  split.
  - intros g t f. simpl. unfold dispatch_100_20_80. repeat case_match; done.
  - intros g t. simpl. unfold dispatch_100_20_80. repeat case_match; done.
Qed.

Lemma eligible_energy_nonneg_witness :
  (∀ fe, RPSFuelEnergy (example_model ["North"] demand_200)
           (example_solution dispatch_100_20_80) "P1" = Ok fe → 0 <= fe) ∧
  (∀ nfe, RPSNonFuelEnergy (example_model ["North"] demand_200)
            (example_solution dispatch_100_20_80) "P1" = Ok nfe → 0 <= nfe).
Proof.
  apply (eligible_energy_nonneg (example_model ["North"] demand_200)
           (example_solution dispatch_100_20_80) "P1").
  - apply example_solution_nonneg.
  - apply example_solution_nonneg.
  - done.
  - done.
Defined.

Lemma RPSFuelEnergy_zero (m : Model) (sol : Solution) (p : string) (fe : Q) :
  (∀ f, f ∈ FUELS m → getitem (f_rps_eligible m) f = Ok false) →
  RPSFuelEnergy m sol p = Ok fe →
  fe == 0.
Proof.
  intros Hnone [_ Hfe]%Expression_Ok_in.
  apply bind_Ok in Hfe as (terms & Hterms & [= <-]).
  apply py_sum_zero. eapply for_each_Ok_Forall; [exact Hterms|].
  intros [g t] y _ (used & Hused & Hy)%bind_Ok.
  apply py_div_Ok_inv in Hy as [_ ->].
  apply bind_Ok in Hused as (fs & Hfs & [= <-]).
  destruct fs as [|f fs].
  - cbn [map]. rewrite py_sum_nil. unfold Qdiv. ring.
  - pose proof (for_each_if_Ok_true _ _ _ Hfs f) as Htrue.
    specialize (Htrue ltac:(left)).
    pose proof Htrue as [Hf _]%getitem_f_rps_eligible_true.
    rewrite (Hnone f Hf) in Htrue. discriminate.
Qed.

(** X4. When no fuel of [FUELS] is eligible, on a host whose fuel-based
    projects burn fuels of [FUELS] and have non-zero heat rates,
    [RPSFuelEnergy] of every RPS period has a value and the value is zero,
    whatever fuel the projects use. *)
Theorem RPSFuelEnergy_without_eligible_fuel (m : Model) (sol : Solution) (p : string) :
  p ∈ RPS_PERIODS m →
  (∀ g, g ∈ FUEL_BASED_GENS m → ¬ gen_full_load_heat_rate m g == 0) →
  (∀ g f, g ∈ FUEL_BASED_GENS m → f ∈ FUELS_FOR_GEN m g → f ∈ FUELS m) →
  (∀ f, f ∈ FUELS m → getitem (f_rps_eligible m) f = Ok false) →
  ∃ fe, RPSFuelEnergy m sol p = Ok fe ∧ fe == 0.
Proof.
  intros Hp Hhr Hfuels Hnone.
  destruct (RPSFuelEnergy_defined m sol p Hp Hhr Hfuels) as [fe Hfe].
  exists fe. split; [done|]. by eapply RPSFuelEnergy_zero.
Qed.

Lemma example_host_fuels (zones : list string) (demand : string → string → Q) (g f : string) :
  g ∈ FUEL_BASED_GENS (example_host zones demand) →
  f ∈ FUELS_FOR_GEN (example_host zones demand) g →
  f ∈ FUELS (example_host zones demand).
Proof.
  simpl. intros Hg.
  apply elem_of_cons in Hg as [->|Hg]; [|apply list_elem_of_singleton in Hg as ->].
  - simpl. intros ->%list_elem_of_singleton. left.
  - simpl. intros ->%list_elem_of_singleton. right. left.
Qed.

Lemma RPSFuelEnergy_without_eligible_fuel_witness :
  ∃ fe, RPSFuelEnergy (example_model_without_flags ["North"] demand_200)
          (example_solution dispatch_100_20_80) "P1" = Ok fe ∧ fe == 0.
Proof.
  apply (RPSFuelEnergy_without_eligible_fuel
           (example_model_without_flags ["North"] demand_200)
           (example_solution dispatch_100_20_80) "P1").
  - left.
  - intros g _ H. discriminate H.
  - apply example_host_fuels.
  - intros f Hf. rewrite getitem_f_rps_eligible by done. reflexivity.
Defined.

(** X5. A fuel-based project with a timepoint in the period and a heat rate
    of zero leaves [RPSFuelEnergy] of the period without a value, for every
    solution and even without an eligible fuel; for a period of
    [RPS_PERIODS] the constraint list is then not built and no solution
    satisfies the module. *)
Theorem zero_heat_rate_blocks (m : Model) (sol : Solution) (p g t : string) :
  p ∈ RPS_PERIODS m →
  g ∈ FUEL_BASED_GENS m →
  t ∈ TPS_FOR_GEN_IN_PERIOD m g p →
  gen_full_load_heat_rate m g == 0 →
  (∀ fe, RPSFuelEnergy m sol p ≠ Ok fe) ∧
  (∀ cs, RPS_Enforce_Target m sol ≠ Ok cs) ∧
  ¬ satisfies_RPS m sol.
Proof.
  intros Hp Hg Ht Hzero.
  assert (∀ fe, RPSFuelEnergy m sol p ≠ Ok fe) as Hno.
  { intros fe [_ Hfe]%Expression_Ok_in.
    apply bind_Ok in Hfe as (terms & Hterms%for_each_Ok & _).
    assert ((g, t) ∈ gen_tps m (FUEL_BASED_GENS m) p) as Hin
      by (by apply elem_of_gen_tps).
    apply list_elem_of_lookup in Hin as [i Hi].
    destruct (Forall2_lookup_l _ _ _ _ _ Hterms Hi) as (y & _ & Hy).
    apply bind_Ok in Hy as (used & _ & Hy).
    by apply py_div_Ok_inv in Hy as [Hne _]. }
  assert (∀ cs, RPS_Enforce_Target m sol ≠ Ok cs) as Hcs.
  { intros cs Hcs.
    destruct (Constraint_lookup _ _ _ _ Hcs Hp) as (c & Hc & _).
    apply RPS_Enforce_Target_rule_Ok in Hc as (fe & _ & _ & Hfe & _).
    by apply (Hno fe). }
  repeat split; [done|done|]. intros (cs & Hcs' & _). by apply (Hcs cs).
Qed.

Lemma zero_heat_rate_blocks_witness :
  (∀ fe, RPSFuelEnergy (example_model_zero_heat_rate ["North"] demand_200)
           (example_solution dispatch_100_20_80) "P1" ≠ Ok fe) ∧
  (∀ cs, RPS_Enforce_Target (example_model_zero_heat_rate ["North"] demand_200)
           (example_solution dispatch_100_20_80) ≠ Ok cs) ∧
  ¬ satisfies_RPS (example_model_zero_heat_rate ["North"] demand_200)
      (example_solution dispatch_100_20_80).
Proof.
  apply (zero_heat_rate_blocks (example_model_zero_heat_rate ["North"] demand_200)
           (example_solution dispatch_100_20_80) "P1" "coal_plant" "t1").
  - left.
  - right. left.
  - left.
  - reflexivity.
Defined.

(** ** Widening the eligibility *)

Lemma getitem_widens (m m' : Model) (x : string) (b : bool) :
  widens_eligibility m m' →
  getitem (f_rps_eligible m) x = Ok b →
  ∃ b', getitem (f_rps_eligible m') x = Ok b' ∧ (b = true → b' = true).
Proof.
  intros (Hhost & _ & _ & Hel) Hb.
  assert (x ∈ FUELS m) as Hx.
  { unfold getitem in Hb. simpl in Hb. by destruct (decide (x ∈ FUELS m)). }
  rewrite getitem_f_rps_eligible in Hb by done. injection Hb as <-.
  exists (eligible m' x). split; [|apply Hel].
  apply getitem_f_rps_eligible. by rewrite Hhost.
Qed.

Lemma RPSFuelEnergy_rule_le (m m' : Model) (sol : Solution) (p : string) (before : Q) :
  widens_eligibility m m' →
  (∀ g t f, 0 <= GenFuelUseRate sol g t f) →
  (∀ t, 0 <= tp_weight m t) →
  (∀ g, 0 <= gen_full_load_heat_rate m g) →
  RPSFuelEnergy_rule m sol p = Ok before →
  ∃ after, RPSFuelEnergy_rule m' sol p = Ok after ∧ before <= after.
Proof.
  intros Hwidens Huse Hw Hhr Hbefore.
  pose proof Hwidens as (Hhost & Hperiods & _ & _).
  unfold RPSFuelEnergy_rule in *.
  apply bind_Ok in Hbefore as (terms & Hterms & [= <-]).
  eapply (for_each_rel Qle) in Hterms as (terms' & Hterms' & Hle).
  - exists (py_sum terms'). split; [|by apply py_sum_le].
    unfold gen_tps in *. rewrite Hhost. by rewrite Hterms'.
  - intros [g t] y _ Hy. cbv beta iota.
    apply bind_Ok in Hy as (used & Hused & Hy).
    apply py_div_Ok_inv in Hy as [Hne ->].
    unfold eligible_fuel_use in *.
    apply bind_Ok in Hused as (fs & Hfs & [= <-]).
    eapply (for_each_if_sum_le _ (getitem (f_rps_eligible m')) (GenFuelUseRate sol g t))
      in Hfs as (fs' & Hfs' & Hsum);
      [|intros x b _; by apply getitem_widens|done].
    rewrite Hhost, Hfs'. run. rewrite (py_div_Ok _ _ Hne).
    eexists. split; [done|]. unfold Qdiv.
    apply Qmult_le_compat_r; [|by apply Qinv_le_0_compat].
    rewrite !(Qmult_comm (tp_weight m t)). by apply Qmult_le_compat_r.
Qed.

(** X6. Flagging more fuels as eligible, with all other data unchanged and
    non-negative fuel use, weights and heat rates, never loses the value of
    [RPSFuelEnergy] and never lowers it. *)
Theorem RPSFuelEnergy_widening (m m' : Model) (sol : Solution) (p : string) (before : Q) :
  widens_eligibility m m' →
  (∀ g t f, 0 <= GenFuelUseRate sol g t f) →
  (∀ t, 0 <= tp_weight m t) →
  (∀ g, 0 <= gen_full_load_heat_rate m g) →
  RPSFuelEnergy m sol p = Ok before →
  ∃ after, RPSFuelEnergy m' sol p = Ok after ∧ before <= after.
Proof.
  intros Hwidens Huse Hw Hhr [Hp Hbefore]%Expression_Ok_in.
  unfold RPSFuelEnergy. rewrite Expression_in.
  - by apply (RPSFuelEnergy_rule_le m m').
  - destruct Hwidens as (_ & -> & _). done.
Qed.

Lemma example_widens (zones : list string) (demand : string → string → Q) :
  widens_eligibility (example_model_without_flags zones demand) (example_model zones demand).
Proof. repeat split. intros f Hf. discriminate Hf. Qed.

Lemma RPSFuelEnergy_widening_witness :
  ∃ after,
    RPSFuelEnergy (example_model ["North"] demand_200)
      (example_solution dispatch_100_20_80) "P1" = Ok after ∧
    0 # 100 <= after.
Proof.
  apply (RPSFuelEnergy_widening (example_model_without_flags ["North"] demand_200)
           (example_model ["North"] demand_200)
           (example_solution dispatch_100_20_80) "P1" (0 # 100)).
  - apply example_widens.
  - apply example_solution_nonneg.
  - done.
  - done.
  - vm_compute. reflexivity.
Defined.

Lemma RPSNonFuelEnergy_widens (m m' : Model) (sol : Solution) (p : string) :
  widens_eligibility m m' →
  RPSNonFuelEnergy m' sol p = RPSNonFuelEnergy m sol p.
Proof.
  intros (Hhost & Hperiods & _ & _).
  unfold RPSNonFuelEnergy, RPSNonFuelEnergy_rule, gen_tps.
  by rewrite Hhost, Hperiods.
Qed.

Lemma rps_target_widens (m m' : Model) (p : string) :
  widens_eligibility m m' →
  getitem (rps_target m') p = getitem (rps_target m) p.
Proof.
  intros (_ & Hperiods & Htargets & _). unfold getitem, rps_target. simpl.
  by rewrite Hperiods, Htargets.
Qed.

(** X7. A solution that satisfies the constraints of the module still
    satisfies them after more fuels are flagged as eligible, with all other
    data unchanged and non-negative fuel use, weights and heat rates. *)
Theorem satisfies_RPS_widening (m m' : Model) (sol : Solution) :
  widens_eligibility m m' →
  (∀ g t f, 0 <= GenFuelUseRate sol g t f) →
  (∀ t, 0 <= tp_weight m t) →
  (∀ g, 0 <= gen_full_load_heat_rate m g) →
  satisfies_RPS m sol →
  satisfies_RPS m' sol.
Proof.
  intros Hwidens Huse Hw Hhr Hsat.
  pose proof Hwidens as (Hhost & Hperiods & _ & _).
  apply Constraint_all_Ok. intros p Hp. rewrite Hperiods in Hp.
  destruct (satisfies_RPS_period m sol p Hsat Hp)
    as (fe & nfe & target & Hfe & Hnfe & Htarget & Hle).
  apply Expression_Ok_in in Hfe as [_ Hfe].
  destruct (RPSFuelEnergy_rule_le m m' sol p fe Hwidens Huse Hw Hhr Hfe)
    as (fe' & Hfe' & Hfe_le).
  exists (GreaterEq (fe' + nfe) (target * total_demand_in_period m' p)). split.
  - apply RPS_Enforce_Target_rule_Ok. exists fe', nfe, target.
    rewrite (RPSNonFuelEnergy_widens m m'), (rps_target_widens m m') by done.
    repeat split; try done.
    unfold RPSFuelEnergy. rewrite Expression_in; [done|by rewrite Hperiods].
  - unfold holds. simpl. apply Qle_bool_iff.
    unfold total_demand_in_period in *. rewrite Hhost.
    eapply Qle_trans; [exact Hle|]. apply Qplus_le_compat; [done|apply Qle_refl].
Qed.

Lemma satisfies_RPS_widening_witness :
  satisfies_RPS (example_model ["North"] demand_200) (example_solution dispatch_100_20_80).
Proof.
  apply (satisfies_RPS_widening (example_model_without_flags ["North"] demand_200)
           (example_model ["North"] demand_200)
           (example_solution dispatch_100_20_80)).
  - apply example_widens.
  - apply example_solution_nonneg.
  - done.
  - done.
  - eexists. split; [vm_compute; reflexivity|]. repeat constructor.
Defined.

(** ** The eligible sources at the extremes *)

Lemma filter_all_false {A} (d : A → bool) (xs : list A) :
  (∀ x, x ∈ xs → d x = false) → List.filter d xs = [].
Proof.
  induction xs as [|x xs IH]; intros Hd; [done|]. simpl.
  rewrite (Hd x) by left. apply IH. intros y Hy. apply Hd. by right.
Qed.

Lemma filter_all_true {A} (d : A → bool) (xs : list A) :
  (∀ x, x ∈ xs → d x = true) → List.filter d xs = xs.
Proof.
  induction xs as [|x xs IH]; intros Hd; [done|]. simpl.
  rewrite (Hd x) by left. f_equal. apply IH. intros y Hy. apply Hd. by right.
Qed.

(** X8. When no fuel is eligible, [RPS_ENERGY_SOURCES] is exactly the set of
    non-fuel sources; when every fuel is eligible, it is all non-fuel
    sources and all fuels. *)
Theorem RPS_ENERGY_SOURCES_extremes (m : Model) :
  ((∀ f, f ∈ FUELS m → getitem (f_rps_eligible m) f = Ok false) →
   RPS_ENERGY_SOURCES m = Ok (list_to_set (NON_FUEL_ENERGY_SOURCES m))) ∧
  ((∀ f, f ∈ FUELS m → getitem (f_rps_eligible m) f = Ok true) →
   RPS_ENERGY_SOURCES m =
     Ok (list_to_set (NON_FUEL_ENERGY_SOURCES m) ∪ list_to_set (FUELS m))).
Proof.
  rewrite RPS_ENERGY_SOURCES_Ok. split; intros Hall.
  - rewrite filter_all_false.
    + simpl. by rewrite (right_id_L ∅ (∪)).
    + intros f Hf. specialize (Hall f Hf).
      rewrite getitem_f_rps_eligible in Hall by done. congruence.
  - rewrite filter_all_true; [done|].
    intros f Hf. specialize (Hall f Hf).
    rewrite getitem_f_rps_eligible in Hall by done. congruence.
Qed.

(** X9. Flagging more fuels as eligible can only add members to
    [RPS_ENERGY_SOURCES]. *)
Theorem RPS_ENERGY_SOURCES_widening (m m' : Model) (sources : gset string) :
  widens_eligibility m m' →
  RPS_ENERGY_SOURCES m = Ok sources →
  ∃ sources', RPS_ENERGY_SOURCES m' = Ok sources' ∧ sources ⊆ sources'.
Proof.
  intros (Hhost & _ & _ & Hel). rewrite !RPS_ENERGY_SOURCES_Ok. intros [= <-].
  eexists. split; [done|]. rewrite Hhost. intros x.
  rewrite !elem_of_union, !elem_of_list_to_set, !list_elem_of_In, !filter_In.
  intros [?|[? ?]]; auto.
Qed.

Lemma RPS_ENERGY_SOURCES_widening_witness :
  ∃ sources',
    RPS_ENERGY_SOURCES (example_model ["North"] demand_200) = Ok sources' ∧
    list_to_set ["Wind"] ∪ list_to_set [] ⊆ sources'.
Proof.
  apply (RPS_ENERGY_SOURCES_widening (example_model_without_flags ["North"] demand_200)
           (example_model ["North"] demand_200)).
  - apply example_widens.
  - reflexivity.
Defined.

(** ** Rows of the report *)

(** The row that [get_row] returns, in terms of the values of the energy
    expressions. *)
Lemma get_row_Ok (m : Model) (sol : Solution) (p : string) (r : string * list Q) :
  get_row m sol p = Ok r ↔
  ∃ fe nfe,
    RPSFuelEnergy m sol p = Ok fe ∧
    RPSNonFuelEnergy m sol p = Ok nfe ∧
    ¬ total_generation_in_period m sol p == 0 ∧
    ¬ total_demand_in_period m p == 0 ∧
    r = (p, [fe / 1000; nfe / 1000; total_generation_in_period m sol p / 1000;
             (fe + nfe) / total_generation_in_period m sol p;
             total_demand_in_period m p;
             (fe + nfe) / total_demand_in_period m p]).
Proof.
  unfold get_row. split.
  - intros (e1 & H1 & H)%bind_Ok. apply bind_Ok in H as (e2 & H2 & H).
    apply bind_Ok in H as (e3 & H3 & H). apply bind_Ok in H as (e4 & H4 & H).
    apply bind_Ok in H as (e6 & H6 & [= <-]).
    apply bind_Ok in H1 as (fe & Hfe & H1). apply bind_Ok in H2 as (nfe & Hnfe & H2).
    rewrite Hfe, Hnfe in H4, H6. run.
    apply py_div_Ok_inv in H1 as [_ ->]. apply py_div_Ok_inv in H2 as [_ ->].
    apply py_div_Ok_inv in H3 as [_ ->]. apply py_div_Ok_inv in H4 as [Hg ->].
    apply py_div_Ok_inv in H6 as [Hd ->].
    by exists fe, nfe.
  - intros (fe & nfe & -> & -> & Hg & Hd & ->). run.
    rewrite !py_div_1000. run. by rewrite (py_div_Ok _ _ Hg), (py_div_Ok _ _ Hd).
Qed.

(** X10. [get_row] returns a row exactly when [RPSFuelEnergy] of the period
    has a value and neither the total generation nor the total demand of the
    period is zero. *)
Theorem get_row_succeeds_iff (m : Model) (sol : Solution) (p : string) :
  (∃ r, get_row m sol p = Ok r) ↔
  (∃ fe, RPSFuelEnergy m sol p = Ok fe) ∧
  ¬ total_generation_in_period m sol p == 0 ∧
  ¬ total_demand_in_period m p == 0.
Proof.
  split.
  - intros [r (fe & nfe & Hfe & _ & Hg & Hd & _)%get_row_Ok]. eauto.
  - intros ([fe Hfe] & Hg & Hd).
    pose proof Hfe as [Hp _]%Expression_Ok_in.
    eexists. apply get_row_Ok. eexists fe, _.
    rewrite (RPSNonFuelEnergy_in m sol p Hp). by repeat split.
Qed.





(** X13. The constraint of a period whose target is zero, or whose total
    demand is zero, holds for every solution with non-negative fuel use,
    dispatch, weights and heat rates for which it can be evaluated. *)
Theorem RPS_Enforce_Target_trivial (m : Model) (sol : Solution) (p : string)
    (c : inequality) (target : Q) :
  (∀ g t f, 0 <= GenFuelUseRate sol g t f) →
  (∀ g t, 0 <= DispatchGen sol g t) →
  (∀ t, 0 <= tp_weight m t) →
  (∀ g, 0 <= gen_full_load_heat_rate m g) →
  getitem (rps_target m) p = Ok target →
  target == 0 ∨ total_demand_in_period m p == 0 →
  RPS_Enforce_Target_rule m sol p = Ok c →
  holds c = true.
Proof.
  intros Huse Hdispatch Hw Hhr Htarget Hzero
    (fe & nfe & target' & Hfe & Hnfe & Htarget' & ->)%RPS_Enforce_Target_rule_Ok.
  replace target' with target by congruence.
  unfold holds. simpl. apply Qle_bool_iff.
  assert (target * total_demand_in_period m p == 0) as ->.
  { destruct Hzero as [-> | ->]; ring. }
  replace 0 with (0 + 0) by reflexivity. apply Qplus_le_compat.
  - by eapply RPSFuelEnergy_nonneg.
  - by eapply RPSNonFuelEnergy_nonneg.
Qed.

Lemma RPS_Enforce_Target_trivial_witness :
  holds (GreaterEq ((2000 # 100) + 100) ((1 # 2) * 0)) = true.
Proof.
  apply (RPS_Enforce_Target_trivial (example_model [] demand_200)
           (example_solution dispatch_100_20_80) "P1" _ (1 # 2)).
  - apply example_solution_nonneg.
  - apply example_solution_nonneg.
  - done.
  - done.
  - reflexivity.
  - right. reflexivity.
  - vm_compute. reflexivity.
Defined.

(** ** The order of the index sets *)

Lemma gen_tps_Permutation (m m' : Model) (gens gens' : list string) (p : string) :
  gens' ≡ₚ gens →
  (∀ g, TPS_FOR_GEN_IN_PERIOD m' g p ≡ₚ TPS_FOR_GEN_IN_PERIOD m g p) →
  gen_tps m' gens' p ≡ₚ gen_tps m gens p.
Proof.
  intros Hgens Htps. unfold gen_tps. rewrite Hgens. clear Hgens.
  induction gens as [|g gens IH]; [done|].
  rewrite !bind_cons. rewrite IH. by rewrite (Htps g).
Qed.

(** X14. In exact arithmetic the sums of the module do not depend on the
    order in which the host lists the load zones, the projects and the
    timepoints: the total demand and the total generation are equal, and a
    value of [RPSNonFuelEnergy] or [RPSFuelEnergy] stays a value and is
    equal. *)
Theorem sums_order_independent (m : Model) (sol : Solution) (p : string)
    (zones projects fuel_based non_fuel_based : list string)
    (tps : string → string → list string) :
  zones ≡ₚ LOAD_ZONES m →
  projects ≡ₚ GENERATION_PROJECTS m →
  fuel_based ≡ₚ FUEL_BASED_GENS m →
  non_fuel_based ≡ₚ NON_FUEL_BASED_GENS m →
  (∀ g, tps g p ≡ₚ TPS_FOR_GEN_IN_PERIOD m g p) →
  total_demand_in_period (reorder m zones projects fuel_based non_fuel_based tps) p
    == total_demand_in_period m p ∧
  total_generation_in_period (reorder m zones projects fuel_based non_fuel_based tps) sol p
    == total_generation_in_period m sol p ∧
  (∀ nfe, RPSNonFuelEnergy m sol p = Ok nfe →
     ∃ nfe', RPSNonFuelEnergy (reorder m zones projects fuel_based non_fuel_based tps) sol p
               = Ok nfe' ∧ nfe' == nfe) ∧
  (∀ fe, RPSFuelEnergy m sol p = Ok fe →
     ∃ fe', RPSFuelEnergy (reorder m zones projects fuel_based non_fuel_based tps) sol p
              = Ok fe' ∧ fe' == fe).
Proof.
  intros Hzones Hprojects Hfuel Hnon Htps.
  set (m' := reorder m zones projects fuel_based non_fuel_based tps).
  split; [|split; [|split]].
  - unfold total_demand_in_period. apply py_sum_Permutation.
    by apply Permutation_map.
  - unfold total_generation_in_period. apply py_sum_Permutation.
    apply Permutation_map. by apply (gen_tps_Permutation m m').
  - intros nfe [Hp [= <-]]%Expression_Ok_in.
    unfold RPSNonFuelEnergy. rewrite Expression_in by done.
    eexists. split; [done|]. apply py_sum_Permutation.
    apply Permutation_map. by apply (gen_tps_Permutation m m').
  - intros fe [Hp Hfe]%Expression_Ok_in.
    unfold RPSFuelEnergy. rewrite Expression_in by done.
    apply bind_Ok in Hfe as (terms & Hterms & [= <-]).
    eapply for_each_Permutation in Hterms as (terms' & Hterms' & Hperm);
      [|symmetry; by apply (gen_tps_Permutation m m' (FUEL_BASED_GENS m) fuel_based p)].
    exists (py_sum terms'). split.
    + unfold RPSFuelEnergy_rule. cbn [FUEL_BASED_GENS m' reorder host].
      change (for_each _ (gen_tps m' fuel_based p)) with
        (for_each (λ gt : string * string,
                     let (g, t) := gt in
                     used ← eligible_fuel_use m sol g t;
                     py_div (tp_weight m t * used) (gen_full_load_heat_rate m g))
                  (gen_tps m' fuel_based p)).
      by rewrite Hterms'.
    + by apply py_sum_Permutation.
Qed.

Lemma sums_order_independent_witness :
  total_demand_in_period example_two_zones_reordered "P1"
    == total_demand_in_period example_two_zones "P1" ∧
  total_generation_in_period example_two_zones_reordered
      (example_solution dispatch_100_20_80) "P1"
    == total_generation_in_period example_two_zones
         (example_solution dispatch_100_20_80) "P1" ∧
  (∀ nfe, RPSNonFuelEnergy example_two_zones (example_solution dispatch_100_20_80) "P1"
            = Ok nfe →
     ∃ nfe', RPSNonFuelEnergy example_two_zones_reordered
               (example_solution dispatch_100_20_80) "P1" = Ok nfe' ∧ nfe' == nfe) ∧
  (∀ fe, RPSFuelEnergy example_two_zones (example_solution dispatch_100_20_80) "P1"
           = Ok fe →
     ∃ fe', RPSFuelEnergy example_two_zones_reordered
              (example_solution dispatch_100_20_80) "P1" = Ok fe' ∧ fe' == fe).
Proof.
  apply (sums_order_independent example_two_zones (example_solution dispatch_100_20_80)
           "P1" ["South"; "North"] ["coal_plant"; "wind_farm"; "biomass_plant"]
           ["coal_plant"; "biomass_plant"] ["wind_farm"]
           (TPS_FOR_GEN_IN_PERIOD example_two_zones)).
  - apply perm_swap.
  - simpl. apply (Permutation_cons_app ["wind_farm"; "biomass_plant"] []). reflexivity.
  - apply perm_swap.
  - reflexivity.
  - reflexivity.
Defined.

(** ** Invariants of the constructed model *)

Lemma add_member_Ok (validate : string → bool) (acc : result (list string)) (x : string)
    (s : list string) :
  add_member validate acc x = Ok s ↔
  ∃ s0, acc = Ok s0 ∧ validate x = true ∧ s = if decide (x ∈ s0) then s0 else s0 ++ [x].
Proof.
  unfold add_member. split.
  - intros (s0 & -> & H)%bind_Ok. destruct (validate x); [|done].
    injection H as <-. by exists s0.
  - intros (s0 & -> & -> & ->). done.
Qed.

(** A constructed set has the earlier members and the loaded ones, each
    loaded member has passed the rule, and no member is repeated. *)
Lemma foldl_add_member_inv (validate : string → bool) (data : list string)
    (acc : result (list string)) (s : list string) :
  foldl (add_member validate) acc data = Ok s →
  ∃ s0, acc = Ok s0 ∧
    (∀ x, x ∈ s ↔ x ∈ s0 ∨ x ∈ data) ∧
    Forall (λ x, validate x = true) data ∧
    (NoDup s0 → NoDup s).
Proof.
  revert acc. induction data as [|x data IH]; intros acc; cbn [foldl].
  - intros ->. exists s. split; [done|]. split; [|by split].
    intros x. rewrite elem_of_nil. tauto.
  - intros (s1 & Hs1 & Hmem & Hall & Hnodup)%IH.
    apply add_member_Ok in Hs1 as (s0 & -> & Hx & ->).
    exists s0. split; [done|]. split; [|split].
    + intros y. rewrite Hmem, elem_of_cons.
      destruct (decide (x ∈ s0)).
      * split; [tauto|]. intros [?|[->|?]]; tauto.
      * rewrite elem_of_app, list_elem_of_singleton. tauto.
    + by constructor.
    + intros Hs0. apply Hnodup. destruct (decide (x ∈ s0)); [done|].
      apply NoDup_app. repeat split; [done| |apply NoDup_singleton].
      intros y Hy ->%list_elem_of_singleton. done.
Qed.

Section Stored_values.
Context {V : Type} (index : list string) (within : cell → option V).

(** What a constructed parameter holds was held before or comes from an
    assignment with a key of the index set and a value of the domain, and
    every assigned key holds a value. *)
Lemma foldl_assign_stored (data : list (string * cell)) (acc : result (gmap string V))
    (vs : gmap string V) :
  foldl (assign index within) acc data = Ok vs →
  ∃ vs0, acc = Ok vs0 ∧
    (∀ k v, vs !! k = Some v →
       vs0 !! k = Some v ∨ (k ∈ index ∧ ∃ c, (k, c) ∈ data ∧ within c = Some v)) ∧
    (∀ k, is_Some (vs0 !! k) ∨ k ∈ data.*1 → is_Some (vs !! k)).
Proof.
  revert acc. induction data as [|kc data IH]; intros acc; cbn [foldl].
  - intros ->. exists vs. repeat split; [by left|].
    intros k [?|Hk]; [done|]. by apply elem_of_nil in Hk.
  - intros (vs1 & Hvs1 & Hstored & Hcovers)%IH.
    apply assign_Ok in Hvs1 as (vs0 & v & -> & Hk & Hv & ->).
    exists vs0. repeat split.
    + intros k v' [Hkv|(Hin & c & Hc & Hwithin)]%Hstored.
      * destruct (decide (kc.1 = k)) as [<-|Hne].
        -- rewrite lookup_insert_eq in Hkv. injection Hkv as <-.
           right. split; [done|]. exists kc.2. split; [|done].
           destruct kc. left.
        -- rewrite lookup_insert_ne in Hkv by done. by left.
      * right. split; [done|]. exists c. split; [by right|done].
    + intros k Hin. apply Hcovers.
      destruct (decide (kc.1 = k)) as [<-|Hne].
      * left. by rewrite lookup_insert_eq.
      * rewrite lookup_insert_ne by done.
        destruct Hin as [?|Hin]; [by left|]. right.
        rewrite fmap_cons in Hin. by apply elem_of_cons in Hin as [?|?].
Qed.
End Stored_values.

Lemma PercentFraction_inv (c : cell) (q : Q) :
  PercentFraction c = Some q → c = CNum q ∧ 0 <= q ∧ q <= 1.
Proof.
  destruct c as [b|q'|s]; simpl; [done| |done].
  destruct (Qle_bool 0 q') eqn:H0; [|done].
  destruct (Qle_bool q' 1) eqn:H1; [|done].
  intros [= <-]. repeat split; by apply Qle_bool_iff.
Qed.

(** X15. A model that [define_components] builds keeps the host as it is;
    its RPS periods are periods of the host and none is repeated; every
    target it holds belongs to an RPS period and lies between 0 and 1; and
    every eligibility flag it holds belongs to a fuel of the host. *)
Theorem define_components_invariants (mod_ : Host) (data : DataPortal) (m : Model) :
  define_components mod_ data = Ok m →
  host m = mod_ ∧
  (∀ p, p ∈ RPS_PERIODS m → p ∈ PERIODS m) ∧
  NoDup (RPS_PERIODS m) ∧
  (∀ p q, rps_target_values m !! p = Some q → p ∈ RPS_PERIODS m ∧ 0 <= q ∧ q <= 1) ∧
  (∀ f b, f_rps_eligible_values m !! f = Some b → f ∈ FUELS m).
Proof.
  intros (flags & periods & targets & Hflags & Hperiods & Htargets & ->)%define_components_Ok.
  simpl. split; [done|].
  apply foldl_add_member_inv in Hperiods as (? & [= <-] & Hmem & Hvalid & Hnodup).
  apply foldl_assign_stored in Htargets as (? & [= <-] & Hstored & _).
  apply foldl_assign_stored in Hflags as (? & [= <-] & Hflag & _).
  repeat split.
  - intros p [Hp|Hp]%Hmem; [by apply elem_of_nil in Hp|].
    rewrite Forall_forall in Hvalid. specialize (Hvalid p Hp).
    by apply bool_decide_eq_true_1 in Hvalid.
  - apply Hnodup, NoDup_nil_2.
  - by destruct (Hstored p q H) as [?|[? _]].
  - destruct (Hstored p q H) as [?|(_ & c & _ & Hc)]; [done|].
    by apply PercentFraction_inv in Hc as (_ & ? & _).
  - destruct (Hstored p q H) as [?|(_ & c & _ & Hc)]; [done|].
    by apply PercentFraction_inv in Hc as (_ & _ & ?).
  - intros f b Hfb. by destruct (Hflag f b Hfb) as [?|[? _]].
Qed.

Lemma define_components_invariants_witness :
  host (example_model ["North"] demand_200) = example_host ["North"] demand_200 ∧
  (∀ p, p ∈ RPS_PERIODS (example_model ["North"] demand_200) →
        p ∈ PERIODS (example_model ["North"] demand_200)) ∧
  NoDup (RPS_PERIODS (example_model ["North"] demand_200)) ∧
  (∀ p q, rps_target_values (example_model ["North"] demand_200) !! p = Some q →
          p ∈ RPS_PERIODS (example_model ["North"] demand_200) ∧ 0 <= q ∧ q <= 1) ∧
  (∀ f b, f_rps_eligible_values (example_model ["North"] demand_200) !! f = Some b →
          f ∈ FUELS (example_model ["North"] demand_200)).
Proof.
  apply (define_components_invariants (example_host ["North"] demand_200)
           (load_inputs example_inputs empty_portal).2).
  vm_compute. reflexivity.
Defined.

(** ** Loading and the portal *)

Lemma loaded_set_add_set_data_ne (name name' : string) (ks : list string) (d : DataPortal) :
  name ≠ name' → loaded_set (add_set_data name ks d) name' = loaded_set d name'.
Proof.
  intros Hne. unfold loaded_set, add_set_data. simpl. by rewrite lookup_insert_ne.
Qed.

(** X16. [load_inputs] touches the data of its own three components only:
    whatever its outcome, the portal holds the same assignments for every
    parameter other than f_rps_eligible and rps_target, and the same members
    for every set other than RPS_PERIODS. *)
Theorem load_inputs_frame (inputs_dir : gmap string TabFile) (switch_data : DataPortal) :
  (∀ name, name ≠ "f_rps_eligible" → name ≠ "rps_target" →
     loaded_param (load_inputs inputs_dir switch_data).2 name = loaded_param switch_data name) ∧
  (∀ name, name ≠ "RPS_PERIODS" →
     loaded_set (load_inputs inputs_dir switch_data).2 name = loaded_set switch_data name).
Proof.
  rewrite load_inputs_unfold.
  destruct (inputs_dir !! "fuels.tab") as [fuels|]; [|done].
  cbn zeta.
  set (d1 := if bool_decide ("f_rps_eligible" ∈ value_columns fuels)
             then add_param_data "f_rps_eligible" (assignments fuels "f_rps_eligible")
                    switch_data
             else switch_data).
  assert (∀ name, name ≠ "f_rps_eligible" →
                  loaded_param d1 name = loaded_param switch_data name) as Hparam.
  { intros name Hne. unfold d1. case_bool_decide; [|done].
    rewrite loaded_param_add_param_data. by rewrite decide_False. }
  assert (∀ name, loaded_set d1 name = loaded_set switch_data name) as Hset.
  { intros name. unfold d1. by case_bool_decide. }
  destruct (inputs_dir !! "rps_targets.tab") as [targets|]; [|by split; auto].
  case_bool_decide; [|by split; auto]. cbn [snd]. split.
  - intros name Hne1 Hne2.
    rewrite loaded_param_add_param_data, decide_False by done.
    rewrite loaded_param_add_set_data. by apply Hparam.
  - intros name Hne. rewrite loaded_set_add_param_data.
    rewrite loaded_set_add_set_data_ne by done. apply Hset.
Qed.

(** X17. Without fuels.tab the function ends with the load error and the
    portal as it was. Without rps_targets.tab, when fuels.tab has the
    eligibility column, it ends with the load error after the first load:
    the portal then holds the eligibility assignments of fuels.tab. *)
Theorem load_inputs_failures (inputs_dir : gmap string TabFile) (switch_data : DataPortal) :
  (inputs_dir !! "fuels.tab" = None →
   load_inputs inputs_dir switch_data = (Err IOError, switch_data)) ∧
  (∀ fuels,
     inputs_dir !! "fuels.tab" = Some fuels →
     "f_rps_eligible" ∈ value_columns fuels →
     inputs_dir !! "rps_targets.tab" = None →
     (load_inputs inputs_dir switch_data).1 = Err IOError ∧
     loaded_param (load_inputs inputs_dir switch_data).2 "f_rps_eligible" =
       loaded_param switch_data "f_rps_eligible" ++ assignments fuels "f_rps_eligible").
Proof.
  rewrite load_inputs_unfold. split.
  - by intros ->.
  - intros fuels -> Hcol ->. cbn zeta. rewrite (bool_decide_eq_true_2 _ Hcol).
    split; [done|]. cbn [snd]. rewrite loaded_param_add_param_data.
    by rewrite decide_True.
Qed.

Lemma load_inputs_failures_witness :
  load_inputs (delete "fuels.tab" example_inputs) empty_portal = (Err IOError, empty_portal) ∧
  ((load_inputs (delete "rps_targets.tab" example_inputs) empty_portal).1 = Err IOError ∧
   loaded_param (load_inputs (delete "rps_targets.tab" example_inputs) empty_portal).2
     "f_rps_eligible" =
     loaded_param empty_portal "f_rps_eligible" ++ assignments fuels_tab "f_rps_eligible").
Proof.
  split.
  - apply (proj1 (load_inputs_failures (delete "fuels.tab" example_inputs) empty_portal)).
    apply lookup_delete_eq.
  - apply (proj2 (load_inputs_failures (delete "rps_targets.tab" example_inputs)
                    empty_portal) fuels_tab).
    + reflexivity.
    + left.
    + apply lookup_delete_eq.
Defined.

Lemma assignments_complete (tab : TabFile) (name k : string) :
  (∀ row, row ∈ rows tab → is_Some (row.2 !! name)) →
  k ∈ map fst (rows tab) → k ∈ (assignments tab name).*1.
Proof.
  intros Hcells Hk. apply list_elem_of_In, in_map_iff in Hk as ([k' row] & <- & Hrow).
  apply list_elem_of_In in Hrow. destruct (Hcells _ Hrow) as [c Hc]. simpl in *.
  apply list_elem_of_fmap. exists (k', c). split; [done|].
  apply list_elem_of_omap. exists (k', row). split; [done|]. simpl. by rewrite Hc.
Qed.

(** X18. When the inputs are loaded into a portal without RPS data and every
    row of rps_targets.tab has a target, the model that is built has the
    index entries of that file as its RPS periods, and every RPS period has
    a target, which lies between 0 and 1. *)
Theorem loaded_periods_have_targets (mod_ : Host) (inputs_dir : gmap string TabFile)
    (switch_data data : DataPortal) (m : Model) (targets : TabFile) :
  loaded_set switch_data "RPS_PERIODS" = [] →
  loaded_param switch_data "rps_target" = [] →
  inputs_dir !! "rps_targets.tab" = Some targets →
  (∀ row, row ∈ rows targets → is_Some (row.2 !! "rps_target")) →
  load_inputs inputs_dir switch_data = (Ok (), data) →
  define_components mod_ data = Ok m →
  (∀ p, p ∈ RPS_PERIODS m ↔ p ∈ map fst (rows targets)) ∧
  (∀ p, p ∈ RPS_PERIODS m →
        ∃ q, getitem (rps_target m) p = Ok q ∧ 0 <= q ∧ q <= 1).
Proof.
  intros Hset Hparam Htab Hcells Hload Hm.
  rewrite load_inputs_unfold, Htab in Hload.
  destruct (inputs_dir !! "fuels.tab") as [fuels|]; [|done].
  cbn zeta in Hload. case_bool_decide; [|done]. injection Hload as <-.
  apply define_components_Ok in Hm as (flags & periods & values & _ & Hperiods & Hvalues & ->).
  rewrite loaded_set_add_param_data, loaded_set_add_set_data in Hperiods.
  rewrite loaded_param_add_param_data, decide_True, loaded_param_add_set_data
    in Hvalues by done.
  assert (∀ d name, name ≠ "f_rps_eligible" →
            loaded_param (if bool_decide ("f_rps_eligible" ∈ value_columns fuels)
                          then add_param_data "f_rps_eligible"
                                 (assignments fuels "f_rps_eligible") d
                          else d) name = loaded_param d name) as Hd1.
  { intros d name Hne. case_bool_decide; [|done].
    rewrite loaded_param_add_param_data. by rewrite decide_False. }
  rewrite Hd1, Hparam in Hvalues by done.
  assert (loaded_set (if bool_decide ("f_rps_eligible" ∈ value_columns fuels)
                      then add_param_data "f_rps_eligible"
                             (assignments fuels "f_rps_eligible") switch_data
                      else switch_data) "RPS_PERIODS" = []) as Hd1set.
  { by case_bool_decide. }
  rewrite Hd1set in Hperiods. simpl in Hperiods, Hvalues.
  apply foldl_add_member_inv in Hperiods as (? & [= <-] & Hmem & _ & _).
  apply foldl_assign_stored in Hvalues as (? & [= <-] & Hstored & Hcovers).
  assert (∀ p, p ∈ periods ↔ p ∈ map fst (rows targets)) as Hiff.
  { intros p. rewrite Hmem, elem_of_nil. tauto. }
  split; [done|]. simpl. intros p Hp.
  destruct (Hcovers p) as [q Hq].
  { right. apply assignments_complete; [done|]. by apply Hiff. }
  exists q. split.
  - unfold getitem. simpl. by rewrite decide_True, Hq.
  - destruct (Hstored p q Hq) as [?|(_ & c & _ & Hc)]; [done|].
    by apply PercentFraction_inv in Hc as (_ & ? & ?).
Qed.

Lemma loaded_periods_have_targets_witness :
  (∀ p, p ∈ RPS_PERIODS (example_model ["North"] demand_200) ↔
        p ∈ map fst (rows rps_targets_tab)) ∧
  (∀ p, p ∈ RPS_PERIODS (example_model ["North"] demand_200) →
        ∃ q, getitem (rps_target (example_model ["North"] demand_200)) p = Ok q ∧
             0 <= q ∧ q <= 1).
Proof.
  apply (loaded_periods_have_targets (example_host ["North"] demand_200) example_inputs
           empty_portal (load_inputs example_inputs empty_portal).2).
  - reflexivity.
  - reflexivity.
  - reflexivity.
  - intros row Hrow. apply list_elem_of_singleton in Hrow as ->. by eexists.
  - vm_compute. reflexivity.
  - vm_compute. reflexivity.
Defined.

(** ** Eligible energy and generation *)















(** ** The report as a whole *)

(** X22. A report that [post_solve] produces has the seven fixed headings and
    one row per period of [RPS_PERIODS], labelled with the periods in the
    order of the set, and every row has as many fields as there are
    headings. *)
Theorem post_solve_table (instance : Model) (sol : Solution) (header : list string)
    (table : list (string * list Q)) :
  post_solve instance sol = Ok (header, table) →
  header = headings ∧
  table.*1 = RPS_PERIODS instance ∧
  Forall (λ row, S (length row.2) = length header) table.
Proof.
  intros [-> Hrows]%post_solve_rows. split; [done|].
  induction Hrows as [|p row periods table Hrow _ [IH1 IH2]]; [by split|].
  destruct row as [label entries].
  apply get_row_Ok in Hrow as (fe & nfe & _ & _ & _ & _ & [= -> ->]).
  split.
  - rewrite fmap_cons. simpl. by f_equal.
  - by constructor.
Qed.

Lemma post_solve_table_witness :
  headings = headings ∧
  [("P1", [2000 # 100000; 100 # 1000; 200 # 1000; 12000 # 20000; 200; 12000 # 20000])].*1
    = RPS_PERIODS (example_model ["North"] demand_200) ∧
  Forall (λ row : string * list Q, S (length row.2) = length headings)
    [("P1", [2000 # 100000; 100 # 1000; 200 # 1000; 12000 # 20000; 200; 12000 # 20000])].
Proof.
  apply (post_solve_table (example_model ["North"] demand_200)
           (example_solution dispatch_100_20_80)).
  vm_compute. reflexivity.
Defined.
